(** * Key bindings tab (src/keybindingstab.ts): model and verified properties

    A shallow embedding of the Extraterm key bindings tab: the shortcut
    formatter, the binding-table formatter, and the element's
    synchronisation methods between the config manager, the key binding
    manager and the view model. *)

From Stdlib Require Import ZArith NArith List String Ascii Lia Sorted Permutation.
From stdpp Require Import base decidable option list numbers sorting gmap fin_maps.

Local Open Scope N_scope.

(** ** JavaScript strings

    A JavaScript string is a sequence of UTF-16 code units; [===] is
    equality of the sequences and [<] is the lexicographic order on the code
    units. *)

Definition jsstring : Type := list N.

(** An ASCII literal of the source as a sequence of code units. *)
Definition lit (s : string) : jsstring :=
  map N_of_ascii (list_ascii_of_string s).

(** [a < b] on strings: the first differing code unit decides, a proper
    prefix is smaller. *)
Fixpoint js_lt (a b : jsstring) : bool :=
  match a, b with
  | _, [] => false
  | [], _ :: _ => true
  | x :: a', y :: b' =>
      if x <? y then true else if y <? x then false else js_lt a' b'
  end.

(** [a > b] is [b < a]. *)
Definition js_gt (a b : jsstring) : bool := js_lt b a.

(** [String.prototype.split] with a separator pattern that matches exactly
    one code unit [sep] (here the regular expression [/\+/g]): the pieces
    between the occurrences, empty pieces included; the empty string gives
    one empty piece. *)
Fixpoint split (sep : N) (s : jsstring) : list jsstring :=
  match s with
  | [] => [[]]
  | c :: s' =>
      if c =? sep then [] :: split sep s'
      else match split sep s' with
           | [] => [[c]]
           | p :: ps => (c :: p) :: ps
           end
  end.

(** [Array.prototype.join]. *)
Fixpoint join (sep : jsstring) (parts : list jsstring) : jsstring :=
  match parts with
  | [] => []
  | [p] => p
  | p :: ps => p ++ sep ++ join sep ps
  end.

Definition PLUS : N := 43.
Definition darwin : jsstring := lit "darwin".

(** The arrow function of [formatShortcut]: the [switch] on one part. *)
Definition shortcutPart (p : jsstring) : jsstring :=
  if bool_decide (p = lit "Cmd") then [0x2318]
  else if bool_decide (p = lit "Shift") then [0x21E7]
  else if bool_decide (p = lit "Alt") then [0x2325]
  else if bool_decide (p = lit "Ctrl") then lit "^"
  else p.

(** [formatShortcut(code)], with [process.platform] as a parameter. *)
Definition formatShortcut (platform : jsstring) (code : jsstring) : jsstring :=
  if bool_decide (platform ≠ darwin) then code
  else
    let parts := split PLUS code in
    let parts := map shortcutPart parts in
    join [] parts.

(** ** Effects: a state and exception monad

    A method runs on a mutable state and either returns normally or throws;
    the state reached when the exception is thrown is kept, since the
    assignments made before it stay made. *)

Inductive Exception : Type :=
| TypeError.

Inductive Outcome (St A : Type) : Type :=
| Return (a : A) (s : St)
| Throw (e : Exception) (s : St).
Arguments Return {St A} a s.
Arguments Throw {St A} e s.

Definition M (St A : Type) : Type := St -> Outcome St A.

Definition ret {St A} (a : A) : M St A := fun s => Return a s.

Definition bind {St A B} (c : M St A) (k : A -> M St B) : M St B :=
  fun s =>
    match c s with
    | Return a s' => k a s'
    | Throw e s' => Throw e s'
    end.

Definition throw {St A} (e : Exception) : M St A := fun s => Throw e s.
Definition get {St} : M St St := fun s => Return s s.
Definition put {St} (s : St) : M St unit := fun _ => Return tt s.

Declare Scope js_scope.
Delimit Scope js_scope with js.
Notation "x <- c ;; k" := (bind c (fun x => k))
  (at level 100, c at next level, right associativity) : js_scope.
Notation "c ;; k" := (bind c (fun _ => k))
  (at level 100, right associativity) : js_scope.
Local Open Scope js_scope.

Definition finalState {St A} (o : Outcome St A) : St :=
  match o with
  | Return _ s => s
  | Throw _ s => s
  end.

Definition returned {St A} (o : Outcome St A) : bool :=
  match o with
  | Return _ _ => true
  | Throw _ _ => false
  end.

(** ** The binding table formatter *)

(** A key binding of [keybindingmanager]: the two fields this file reads. *)
Record KeyBinding : Type := {
  command : jsstring;
  shortcut : jsstring
}.

Global Instance KeyBinding_eq_dec : EqDecision KeyBinding.
Proof. solve_decision. Defined.

(** Arrays of key bindings are objects: a value of array type is a
    reference into the heap, and two references may name the same array. *)
Definition loc : Type := nat.

Abbreviation Heap := (gmap nat (list KeyBinding)).

(** [keybindingmanager.KeyBindingMapping]: [keyBindings] refers to the
    manager's own array. *)
Record KeyBindingMapping : Type := {
  keyBindings : loc
}.

(** [keybindingstext.json]: the tables behind [humanText]. [commands] and
    [contextNames] are plain objects, given by their own properties; reading
    a property they do not have themselves finds the member of that name
    that every plain object inherits, if there is one. [objectPrototype]
    holds the inherited members by name, each as the string it converts to
    (for a function its source text, which the runtime chooses). *)
Record HumanText : Type := {
  contexts : list jsstring;
  commands : gmap jsstring jsstring;
  contextNames : gmap jsstring jsstring;
  objectPrototype : gmap jsstring jsstring
}.

(** Reading an array; a reference to nothing is [undefined], and using it
    as an array throws. *)
Definition Array_read (l : loc) : M Heap (list KeyBinding) :=
  fun h =>
    match h !! l with
    | Some arr => Return arr h
    | None => Throw TypeError h
    end.

(** [_.clone(array)]: a new array with the same elements. *)
Definition _clone (l : loc) : M Heap loc :=
  arr <- Array_read l ;;
  h <- get ;;
  let l' := fresh (dom h) in
  put (<[l' := arr]> h) ;;
  ret l'.

Section ArraySort.
Context {A : Type}.
Variable comparefn : A -> A -> Z.

(** One step of the insertion sort, on the part already sorted held in
    reverse: the elements [tmp] with [comparefn(tmp, element) > 0] move
    one place up and [element] goes below them. *)
Fixpoint insertBack (element : A) (sortedRev : list A) : list A :=
  match sortedRev with
  | [] => [element]
  | tmp :: rest =>
      if (0 <? comparefn tmp element)%Z
      then tmp :: insertBack element rest
      else element :: tmp :: rest
  end.

(** The sort of [Array.prototype.sort] on the elements: insertion sort
    from left to right. The order in which the runtime leaves elements that
    compare equal is its own choice; this sort keeps their order, and the
    properties stated of the tables do not depend on it. *)
Definition insertionSort (arr : list A) : list A :=
  rev (fold_left (fun sortedRev element => insertBack element sortedRev) arr []).

(** [a] may stand before [b]: the comparison does not say [a > b]. *)
Definition inOrder (a b : A) : Prop := (0 <? comparefn a b)%Z = false.
End ArraySort.

(** [array.sort(comparefn)] sorts the array in place. *)
Definition Array_sort (comparefn : KeyBinding -> KeyBinding -> Z) (l : loc)
  : M Heap unit :=
  arr <- Array_read l ;;
  h <- get ;;
  put (<[l := insertionSort comparefn arr]> h).

Definition CLASS_KEYCAP : jsstring := lit "CLASS_KEYCAP".
Definition DQ : jsstring := [34].
Definition NL : jsstring := [10].

Section Formatting.
Variable process_platform : jsstring.
Variable humanText : HumanText.

(** [humanText.commands[commandCode] || commandCode]: an empty label and
    a property found nowhere both fall back to the code; an inherited member
    is an object, so it is kept, and where the result is compared or put
    into the text it is converted to its string. *)
Definition commandName (commandCode : jsstring) : jsstring :=
  match commands humanText !! commandCode with
  | Some str => if bool_decide (str = []) then commandCode else str
  | None =>
      match objectPrototype humanText !! commandCode with
      | Some member => member
      | None => commandCode
      end
  end.

Definition contextHeading (contextName : jsstring) : jsstring :=
  match contextNames humanText !! contextName with
  | Some str => if bool_decide (str = []) then contextName else str
  | None =>
      match objectPrototype humanText !! contextName with
      | Some member => member
      | None => contextName
      end
  end.

(** The comparison function given to [sort]. *)
Definition compareBindings (a b : KeyBinding) : Z :=
  let nameA := commandName (command a) in
  let nameB := commandName (command b) in
  if js_lt nameA nameB then (-1)%Z
  else if js_gt nameA nameB then 1%Z else 0%Z.

(** The text before the rows. *)
Definition tableHead : jsstring :=
  lit "<table class='table'>" ++ NL ++
  lit "    <tr>" ++ NL ++
  lit "      <th class=" ++ DQ ++ lit "col-md-7" ++ DQ ++ lit ">Command</th>" ++ NL ++
  lit "      <th class=" ++ DQ ++ lit "col-md-2" ++ DQ ++ lit ">Shortcut</th>" ++ NL ++
  lit "      <th class=" ++ DQ ++ lit "col-md-3" ++ DQ ++ lit ">Code</th>" ++ NL ++
  lit "    </tr>".

(** The template of one row. *)
Definition formatRow (binding : KeyBinding) : jsstring :=
  lit "<tr>" ++ NL ++
  lit "        <td class=" ++ DQ ++ lit "col-md-7" ++ DQ ++ lit ">" ++
    commandName (command binding) ++ lit "</td>" ++ NL ++
  lit "        <td class=" ++ DQ ++ lit "col-md-2" ++ DQ ++ lit "><div class='" ++
    CLASS_KEYCAP ++ lit "'><span>" ++
    formatShortcut process_platform (shortcut binding) ++
    lit "</span></div></td>" ++ NL ++
  lit "        <td class=" ++ DQ ++ lit "col-md-3" ++ DQ ++ lit ">" ++
    command binding ++ lit "</td></tr>".

Definition formatKeyBindingsMapping (context : KeyBindingMapping)
  : M Heap jsstring :=
  bindings <- _clone (keyBindings context) ;;
  Array_sort compareBindings bindings ;;
  sorted <- Array_read bindings ;;
  ret (tableHead ++ join NL (map formatRow sorted) ++ lit "</table>").
End Formatting.

(** ** The configuration, as this file reads it *)

Module config.
Record KeyBindingInfo : Type := {
  name : jsstring;
  filename : jsstring
}.

(** A reference to an object or an array may be [null] or [undefined]:
    [keyBindingsFiles] and [systemConfig] are options. *)
Record SystemConfig : Type := {
  keyBindingsFiles : option (list KeyBindingInfo)
}.

Record Config : Type := {
  keyBindingsFilename : jsstring;
  systemConfig : option SystemConfig
}.

Global Instance KeyBindingInfo_eq_dec : EqDecision KeyBindingInfo.
Proof. solve_decision. Defined.
Global Instance SystemConfig_eq_dec : EqDecision SystemConfig.
Proof. solve_decision. Defined.
Global Instance Config_eq_dec : EqDecision Config.
Proof. solve_decision. Defined.

Definition with_keyBindingsFilename (f : jsstring) (c : Config) : Config :=
  {| keyBindingsFilename := f; systemConfig := systemConfig c |}.

(** [config.systemConfig.keyBindingsFiles], when both are there. *)
Definition profiles (c : Config) : option (list KeyBindingInfo) :=
  systemConfig c ≫= keyBindingsFiles.
End config.

(** ** The element and the objects around it *)

(** The data behind the view. The arrays of profile entries are never
    changed in place by this file and are held by value. *)
Record ModelData : Type := {
  selectedKeyBindings : jsstring;
  keyBindingsFiles : list config.KeyBindingInfo;
  keyBindingsContextsStamp : Z
}.

Inductive ModelField : Type :=
| F_selectedKeyBindings
| F_keyBindingsFiles
| F_keyBindingsContextsStamp.

(** A manager is an object outside this file, known by its identity. *)
Definition ref : Type := nat.

(** The fields [_initProperties] sets ([_vm] belongs to the view). *)
Record EtKeyBindingsTab : Type := {
  _configManager : option ref;
  _keyBindingManager : option ref;
  _data : ModelData
}.

(** What the element does to the outside, in order: the calls on the two
    managers (each with the element as the listener key), the assignments
    to the fields of [_data], which the view observes, and the call of the
    base class's [detachedCallback], which is not in this file. *)
Inductive Event : Type :=
| CM_registerChangeListener (cm : ref)
| CM_unregisterChangeListener (cm : ref)
| CM_setConfig (cm : ref) (newConfig : config.Config)
| KBM_registerChangeListener (kbm : ref)
| KBM_unregisterChangeListener (kbm : ref)
| Data_assign (f : ModelField)
| Super_detachedCallback.

Global Instance ModelField_eq_dec : EqDecision ModelField.
Proof. solve_decision. Defined.
Global Instance Event_eq_dec : EqDecision Event.
Proof. solve_decision. Defined.

(** The outside: the config each config manager returns from [getConfig()]
    ([None] is [null]), the reading of [Date.now()], and the events so far,
    oldest first. *)
Record World : Type := {
  configs : gmap nat config.Config;
  now : Z;
  trace : list Event
}.

Record State : Type := {
  this : EtKeyBindingsTab;
  world : World
}.

Definition emit (e : Event) : M State unit :=
  fun s =>
    Return tt {| this := this s;
                 world := {| configs := configs (world s);
                             now := now (world s);
                             trace := trace (world s) ++ [e] |} |}.

(** Using a value that may be [null] as an object. *)
Definition deref {St A} (o : option A) : M St A :=
  match o with
  | Some a => ret a
  | None => throw TypeError
  end.

Definition getThis : M State EtKeyBindingsTab := fun s => Return (this s) s.
Definition putThis (t : EtKeyBindingsTab) : M State unit :=
  fun s => Return tt {| this := t; world := world s |}.
Definition getData : M State ModelData := fun s => Return (_data (this s)) s.

Definition Date_now : M State Z := fun s => Return (now (world s)) s.

(** [configManager.getConfig()]. *)
Definition getConfig (cm : ref) : M State (option config.Config) :=
  fun s => Return (configs (world s) !! cm) s.

(** Modelled from the spec: [ConfigManager.setConfig] of [./config], which
    is not in this file. The manager takes the submitted config as its
    current one, so that a later [getConfig()] returns it; its listeners are
    told by a later event. *)
Definition setConfig (cm : ref) (newConfig : config.Config) : M State unit :=
  emit (CM_setConfig cm newConfig) ;;
  fun s =>
    Return tt {| this := this s;
                 world := {| configs := <[cm := newConfig]> (configs (world s));
                             now := now (world s);
                             trace := trace (world s) |} |}.

(** Assignments to the fields of [this._data]. *)
Definition assign_selectedKeyBindings (v : jsstring) : M State unit :=
  t <- getThis ;;
  putThis {| _configManager := _configManager t;
             _keyBindingManager := _keyBindingManager t;
             _data := {| selectedKeyBindings := v;
                         keyBindingsFiles := keyBindingsFiles (_data t);
                         keyBindingsContextsStamp :=
                           keyBindingsContextsStamp (_data t) |} |} ;;
  emit (Data_assign F_selectedKeyBindings).

Definition assign_keyBindingsFiles (v : list config.KeyBindingInfo)
  : M State unit :=
  t <- getThis ;;
  putThis {| _configManager := _configManager t;
             _keyBindingManager := _keyBindingManager t;
             _data := {| selectedKeyBindings := selectedKeyBindings (_data t);
                         keyBindingsFiles := v;
                         keyBindingsContextsStamp :=
                           keyBindingsContextsStamp (_data t) |} |} ;;
  emit (Data_assign F_keyBindingsFiles).

Definition assign_keyBindingsContextsStamp (v : Z) : M State unit :=
  t <- getThis ;;
  putThis {| _configManager := _configManager t;
             _keyBindingManager := _keyBindingManager t;
             _data := {| selectedKeyBindings := selectedKeyBindings (_data t);
                         keyBindingsFiles := keyBindingsFiles (_data t);
                         keyBindingsContextsStamp := v |} |} ;;
  emit (Data_assign F_keyBindingsContextsStamp).

Definition when {St} (b : bool) (c : M St unit) : M St unit :=
  if b then c else ret tt.

(** *** The methods of [EtKeyBindingsTab] *)

Definition _initProperties : M State unit :=
  stamp <- Date_now ;;
  putThis {| _configManager := None;
             _keyBindingManager := None;
             _data := {| selectedKeyBindings := [];
                         keyBindingsFiles := [];
                         keyBindingsContextsStamp := stamp |} |}.

Definition createdCallback : M State unit := _initProperties.

Definition setKeyBindingManager (newKeyBindingManager : option ref)
  : M State unit :=
  t <- getThis ;;
  match _keyBindingManager t with
  | Some old => emit (KBM_unregisterChangeListener old)
  | None => ret tt
  end ;;
  putThis {| _configManager := _configManager t;
             _keyBindingManager := newKeyBindingManager;
             _data := _data t |} ;;
  t <- getThis ;;
  match _keyBindingManager t with
  | Some m => emit (KBM_registerChangeListener m)
  | None => ret tt
  end.

Definition _onKeyBindingChange : M State unit :=
  stamp <- Date_now ;;
  assign_keyBindingsContextsStamp stamp.

Definition _setConfig (config : option config.Config) : M State unit :=
  d <- getData ;;
  c <- deref config ;;
  sc <- deref (config.systemConfig c) ;;
  files <- deref (config.keyBindingsFiles sc) ;;
  when (bool_decide (length (keyBindingsFiles d) ≠ length files))
       (assign_keyBindingsFiles files) ;;
  d <- getData ;;
  when (bool_decide (selectedKeyBindings d ≠ config.keyBindingsFilename c))
       (assign_selectedKeyBindings (config.keyBindingsFilename c)).

(** The listener [setConfigManager] registers: it reads the config of the
    manager it was made for. *)
Definition configChangeListener (configManager : ref) : M State unit :=
  cfg <- getConfig configManager ;;
  _setConfig cfg.

Definition setConfigManager (configManager : option ref) : M State unit :=
  t <- getThis ;;
  putThis {| _configManager := configManager;
             _keyBindingManager := _keyBindingManager t;
             _data := _data t |} ;;
  t <- getThis ;;
  cm <- deref (_configManager t) ;;
  emit (CM_registerChangeListener cm) ;;
  cm' <- deref configManager ;;
  cfg <- getConfig cm' ;;
  _setConfig cfg.

(** [detachedCallback()]; it ends with the base class's
    [detachedCallback], which is recorded as a call. *)
Definition detachedCallback : M State unit :=
  t <- getThis ;;
  match _configManager t with
  | Some cm => emit (CM_unregisterChangeListener cm)
  | None => ret tt
  end ;;
  t <- getThis ;;
  match _keyBindingManager t with
  | Some kbm => emit (KBM_unregisterChangeListener kbm)
  | None => ret tt
  end ;;
  emit Super_detachedCallback.

(** [_dataChanged(newVal)]; [_.cloneDeep] of a config is the same value in
    a new object, and of [null] is [null]. The [@log] decorator is taken to
    call the method through. *)
Definition _dataChanged (newVal : ModelData) : M State unit :=
  t <- getThis ;;
  cm <- deref (_configManager t) ;;
  cfg <- getConfig cm ;;
  newConfig <- deref cfg ;;
  when (bool_decide (config.keyBindingsFilename newConfig
                       ≠ selectedKeyBindings newVal))
       (let newConfig :=
          config.with_keyBindingsFilename (selectedKeyBindings newVal) newConfig in
        t <- getThis ;;
        cm <- deref (_configManager t) ;;
        setConfig cm newConfig).

(** The [select] of the template is bound to [selectedKeyBindings] and has
    one option per entry of [keyBindingsFiles], with the entry's [filename]
    as its value: choosing the option [option] assigns that value, and the
    watcher on the data then calls [_dataChanged] with the data. *)
Definition chooseOption (option : config.KeyBindingInfo) : M State unit :=
  assign_selectedKeyBindings (config.filename option) ;;
  d <- getData ;;
  _dataChanged d.

(** The members of [Object.prototype] as V8 converts them to strings. *)
Definition v8ObjectPrototype : gmap jsstring jsstring :=
  list_to_map
    [(lit "constructor", lit "function Object() { [native code] }");
     (lit "toString", lit "function toString() { [native code] }");
     (lit "toLocaleString", lit "function toLocaleString() { [native code] }");
     (lit "valueOf", lit "function valueOf() { [native code] }");
     (lit "hasOwnProperty", lit "function hasOwnProperty() { [native code] }");
     (lit "isPrototypeOf", lit "function isPrototypeOf() { [native code] }");
     (lit "propertyIsEnumerable",
      lit "function propertyIsEnumerable() { [native code] }");
     (lit "__defineGetter__", lit "function __defineGetter__() { [native code] }");
     (lit "__defineSetter__", lit "function __defineSetter__() { [native code] }");
     (lit "__lookupGetter__", lit "function __lookupGetter__() { [native code] }");
     (lit "__lookupSetter__", lit "function __lookupSetter__() { [native code] }");
     (lit "__proto__", lit "[object Object]")].

(** The labels of the example: zoom is "Zoom", copy is "Copy". *)
Definition exampleText : HumanText :=
  {| contexts := [];
     commands := list_to_map [(lit "zoom", lit "Zoom"); (lit "copy", lit "Copy")];
     contextNames := ∅;
     objectPrototype := v8ObjectPrototype |}.

Definition zoom : KeyBinding := {| command := lit "zoom"; shortcut := lit "Ctrl+Z" |}.
Definition copy : KeyBinding := {| command := lit "copy"; shortcut := lit "Ctrl+C" |}.

(** The manager's array [zoom, copy] at reference 0. *)
Definition exampleHeap : Heap := {[ 0%nat := [zoom; copy] ]}.

(** The order of labels a sorted table has. *)
Definition labelOrder (ht : HumanText) (a b : KeyBinding) : Prop :=
  js_gt (commandName ht (command a)) (commandName ht (command b)) = false.

(** ** Runs of the element *)

(** The fields before [createdCallback]; [_initProperties] sets each. *)
Definition unset : EtKeyBindingsTab :=
  {| _configManager := None;
     _keyBindingManager := None;
     _data := {| selectedKeyBindings := [];
                 keyBindingsFiles := [];
                 keyBindingsContextsStamp := 0 |} |}.

(** The element once created, in the world [w]. *)
Definition created (w : World) : State :=
  finalState (createdCallback {| this := unset; world := w |}).

(** What happens to the element, and around it. *)
Inductive Action : Type :=
| Do_setConfigManager (configManager : option ref)
| Do_setKeyBindingManager (newKeyBindingManager : option ref)
| Do_detachedCallback
| On_configChange (cm : ref)
    (* the listener made by [setConfigManager] for [cm] is called *)
| On_keyBindingChange
    (* the listener given to the key binding manager is called *)
| On_dataWatch
    (* the watcher on the data calls [_dataChanged] with the data *)
| On_chooseOption (i : nat)
    (* the user chooses the [i]-th option of the select *)
| Env_config (cm : ref) (c : config.Config)
    (* the config of the manager [cm] becomes [c] *)
| Env_clock (t : Z)
    (* the clock reads [t] *).

Definition perform (a : Action) : M State unit :=
  match a with
  | Do_setConfigManager configManager => setConfigManager configManager
  | Do_setKeyBindingManager m => setKeyBindingManager m
  | Do_detachedCallback => detachedCallback
  | On_configChange cm => configChangeListener cm
  | On_keyBindingChange => _onKeyBindingChange
  | On_dataWatch => d <- getData ;; _dataChanged d
  | On_chooseOption i =>
      d <- getData ;;
      match keyBindingsFiles d !! i with
      | Some option => chooseOption option
      | None => ret tt
      end
  | Env_config cm c =>
      fun s =>
        Return tt {| this := this s;
                     world := {| configs := <[cm := c]> (configs (world s));
                                 now := now (world s);
                                 trace := trace (world s) |} |}
  | Env_clock t =>
      fun s =>
        Return tt {| this := this s;
                     world := {| configs := configs (world s);
                                 now := t;
                                 trace := trace (world s) |} |}
  end.

(** An exception ends the action; the element goes on from the state the
    action left. *)
Definition exec (a : Action) (s : State) : State := finalState (perform a s).

Definition run (actions : list Action) (s : State) : State :=
  fold_left (fun s a => exec a s) actions s.

(** [n] key binding changes, the clock reading [readings]'s members in
    turn. *)
Definition keyBindingChanges (readings : list Z) : list Action :=
  flat_map (fun t => [Env_clock t; On_keyBindingChange]) readings.

Definition stampOf (s : State) : Z := keyBindingsContextsStamp (_data (this s)).

Definition isSetConfig (e : Event) : bool :=
  match e with
  | CM_setConfig _ _ => true
  | _ => false
  end.

Definition isManagerCall (e : Event) : bool :=
  match e with
  | Data_assign _ => false
  | Super_detachedCallback => false
  | _ => true
  end.

(** The [setConfig] calls of a trace, and the calls on the managers. *)
Definition setConfigCalls (s : State) : list Event :=
  List.filter isSetConfig (trace (world s)).
Definition managerCalls (s : State) : list Event :=
  List.filter isManagerCall (trace (world s)).

(** How many times the call [e] was made. *)
Definition callsOf (e : Event) (s : State) : nat :=
  length (List.filter (fun x => bool_decide (x = e)) (trace (world s))).

(** The selected profile is empty or the filename of an entry of the
    list. *)
Definition selectionListed (d : ModelData) : Prop :=
  selectedKeyBindings d = []
  \/ selectedKeyBindings d ∈ map config.filename (keyBindingsFiles d).

Global Instance selectionListed_dec d : Decision (selectionListed d).
Proof. unfold selectionListed. apply _. Defined.

Definition emptyWorld : World := {| configs := ∅; now := 0; trace := [] |}.

Definition profileA : config.KeyBindingInfo :=
  {| config.name := lit "A"; config.filename := lit "a.json" |}.
Definition profileB : config.KeyBindingInfo :=
  {| config.name := lit "B"; config.filename := lit "b.json" |}.
Definition configA : config.Config :=
  {| config.keyBindingsFilename := lit "a.json";
     config.systemConfig := Some {| config.keyBindingsFiles := Some [profileA] |} |}.
Definition configB : config.Config :=
  {| config.keyBindingsFilename := lit "b.json";
     config.systemConfig := Some {| config.keyBindingsFiles := Some [profileB] |} |}.

(** The element after [setKeyBindingManager] and [setConfigManager], the
    config manager 0 holding [configA]. *)
Definition attachedState : State :=
  run [Env_config 0%nat configA;
       Do_setKeyBindingManager (Some 1%nat);
       Do_setConfigManager (Some 0%nat)]
      (created emptyWorld).

(** Data that selects a file no entry has. *)
Definition unlistedSelection : ModelData :=
  {| selectedKeyBindings := lit "zzz.json";
     keyBindingsFiles := [profileA];
     keyBindingsContextsStamp := 0 |}.

(** The element after the manager's config went from [configA] to
    [configB], a config with another list of the same length. *)
Definition staleState : State :=
  run [Env_config 0%nat configA;
       Do_setConfigManager (Some 0%nat);
       Env_config 0%nat configB;
       On_configChange 0%nat]
      (created emptyWorld).

(** A config the length test of [_setConfig] deals with: its selected file
    is empty or the file of one of its own entries, and its list either
    differs in length from the model's or is the model's. A [null] config,
    or one without a system config or without a list, changes nothing. *)
Definition agrees (d : ModelData) (cfg : option config.Config) : Prop :=
  match cfg with
  | Some c =>
      match config.profiles c with
      | Some files =>
          (config.keyBindingsFilename c = []
           \/ config.keyBindingsFilename c ∈ map config.filename files)
          /\ (length (keyBindingsFiles d) ≠ length files
              \/ keyBindingsFiles d = files)
      | None => True
      end
  | None => True
  end.

(** The actions that hand a config to [_setConfig] do so with one that
    agrees with the model. *)
Definition admissible (a : Action) (s : State) : Prop :=
  match a with
  | Do_setConfigManager (Some cm) | On_configChange cm =>
      agrees (_data (this s)) (configs (world s) !! cm)
  | _ => True
  end.

(** The states of an element that was created and then went through
    admissible actions. *)
Inductive reachable : State -> Prop :=
| reach_created (w : World) : reachable (created w)
| reach_step (s : State) (a : Action) :
    reachable s -> admissible a s -> reachable (exec a s).

(** The element whose model selects [b.json] with the list of [configA],
    the manager holding [configA] again before the watcher has run. *)
Definition unlistedState : State := run [Env_config 0%nat configA] staleState.

(** A config without a system config. *)
Definition configNoSystem : config.Config :=
  {| config.keyBindingsFilename := lit "a.json";
     config.systemConfig := None |}.

(** The element with its listener on the manager 0, which now holds
    [configNoSystem]. *)
Definition noSystemState : State :=
  run [Env_config 0%nat configNoSystem] attachedState.

(** ** The page of tables *)

(** [array.map(f)] with a function that has effects: the elements are
    taken from left to right and the first exception ends the call. *)
Fixpoint Array_map {St A B} (f : A -> M St B) (l : list A) : M St (list B) :=
  match l with
  | [] => ret []
  | x :: l' =>
      y <- f x ;;
      ys <- Array_map f l' ;;
      ret (y :: ys)
  end.

(** [keybindingmanager.KeyBindingContexts], which is not in this file, as
    this file uses it: [context(name)] gives a mapping, or [null]. *)
Record KeyBindingContexts : Type := {
  context : jsstring -> option KeyBindingMapping
}.

Section Page.
Variable process_platform : jsstring.
Variable humanText : HumanText.

(** The arrow function of [formatKeyBindingsPage]: the heading and the
    table of one context; [formatKeyBindingsMapping] reads
    [context.keyBindings], which throws on [null]. *)
Definition formatContextSection (keyBindingContexts : KeyBindingContexts)
    (contextName : jsstring) : M Heap jsstring :=
  mapping <- deref (context keyBindingContexts contextName) ;;
  table <- formatKeyBindingsMapping process_platform humanText mapping ;;
  ret (lit "<h2>" ++ contextHeading humanText contextName ++ lit "</h2>" ++ table).

Definition formatKeyBindingsPage (keyBindingContexts : KeyBindingContexts)
  : M Heap jsstring :=
  sections <- Array_map (formatContextSection keyBindingContexts)
                        (contexts humanText) ;;
  ret (join [] sections).
End Page.

(** ** Registering the element *)

Definition TAG_NAME : jsstring := lit "ET-KEYBINDINGS-TAB".

(** The flag [registered] of the module and the calls of
    [window.document.registerElement], by tag name. *)
Record Globals : Type := {
  registered : bool;
  registerElementCalls : list jsstring
}.

(** [EtKeyBindingsTab.init()]. *)
Definition init : M Globals unit :=
  g <- get ;;
  if bool_decide (registered g = false) then
    put {| registered := registered g;
           registerElementCalls := registerElementCalls g ++ [TAG_NAME] |} ;;
    g <- get ;;
    put {| registered := true;
           registerElementCalls := registerElementCalls g |}
  else ret tt.

(** Texts with two contexts, [main] and [editor], of which [main] has a
    heading. *)
Definition pageText : HumanText :=
  {| contexts := [lit "main"; lit "editor"];
     commands := list_to_map [(lit "zoom", lit "Zoom"); (lit "copy", lit "Copy")];
     contextNames := {[ lit "main" := lit "Main window" ]};
     objectPrototype := v8ObjectPrototype |}.

(** Two contexts, [main] on the array 0 and [editor] on the array 1. *)
Definition pageContexts : KeyBindingContexts :=
  {| context := fun contextName =>
       if bool_decide (contextName = lit "main")
       then Some {| keyBindings := 0%nat |}
       else if bool_decide (contextName = lit "editor")
       then Some {| keyBindings := 1%nat |}
       else None |}.

Definition pageHeap : Heap := {[ 0%nat := [zoom; copy]; 1%nat := [copy] ]}.

(** Contexts that lack [editor]. *)
Definition mainOnlyContexts : KeyBindingContexts :=
  {| context := fun contextName =>
       if bool_decide (contextName = lit "main")
       then Some {| keyBindings := 0%nat |}
       else None |}.

(** The array [copy, zoom], at reference 0. *)
Definition swappedHeap : Heap := {[ 0%nat := [copy; zoom] ]}.

(** A second config manager's config, with two profiles. *)
Definition configAB : config.Config :=
  {| config.keyBindingsFilename := lit "b.json";
     config.systemConfig :=
       Some {| config.keyBindingsFiles := Some [profileA; profileB] |} |}.

(** The element of [attachedState], the manager 2 holding [configAB]. *)
Definition twoManagersState : State :=
  run [Env_config 2%nat configAB] attachedState.

(** The table of the bindings [bs], put in order. *)
Definition sortedTable (platform : jsstring) (ht : HumanText)
    (bs : list KeyBinding) : jsstring :=
  tableHead ++
  join NL (map (formatRow platform ht) (insertionSort (compareBindings ht) bs)) ++
  lit "</table>".

(** The section of the context [contextName] whose bindings are [bs]. *)
Definition sectionOf (platform : jsstring) (ht : HumanText)
    (contextName : jsstring) (bs : list KeyBinding) : jsstring :=
  lit "<h2>" ++ contextHeading ht contextName ++ lit "</h2>" ++
  sortedTable platform ht bs.

(** The bindings of the contexts of [pageContexts] in [pageHeap]. *)
Definition pageArrays (contextName : jsstring) : list KeyBinding :=
  if bool_decide (contextName = lit "main") then [zoom; copy] else [copy].

(** One row as the template writes it: a cell with the label, a cell with
    the shortcut as shown, in its key cap, and a cell with the command
    code. *)
Definition rowText (label shownShortcut code : jsstring) : jsstring :=
  lit "<tr>" ++ NL ++
  lit "        <td class=" ++ DQ ++ lit "col-md-7" ++ DQ ++ lit ">" ++
    label ++ lit "</td>" ++ NL ++
  lit "        <td class=" ++ DQ ++ lit "col-md-2" ++ DQ ++
    lit "><div class='CLASS_KEYCAP'><span>" ++ shownShortcut ++
    lit "</span></div></td>" ++ NL ++
  lit "        <td class=" ++ DQ ++ lit "col-md-3" ++ DQ ++ lit ">" ++
    code ++ lit "</td></tr>".

(** The table of the bindings [rows], in that order. *)
Definition tableOfRows (platform : jsstring) (ht : HumanText)
    (rows : list KeyBinding) : jsstring :=
  tableHead ++
  join NL (map (fun binding =>
                  rowText (commandName ht (command binding))
                          (formatShortcut platform (shortcut binding))
                          (command binding)) rows) ++
  lit "</table>".

(** Texts without any label, and two bindings of which one has the name of
    an inherited member for its command. *)
Definition noLabels : HumanText :=
  {| contexts := [];
     commands := ∅;
     contextNames := ∅;
     objectPrototype := v8ObjectPrototype |}.

Definition constructorBinding : KeyBinding :=
  {| command := lit "constructor"; shortcut := lit "Ctrl+K" |}.
Definition dBinding : KeyBinding :=
  {| command := lit "d"; shortcut := lit "Ctrl+D" |}.

Definition inheritedHeap : Heap :=
  {[ 0%nat := [constructorBinding; dBinding] ]}.

(** A config whose system config has no list. *)
Definition configNoFiles : config.Config :=
  {| config.keyBindingsFilename := lit "a.json";
     config.systemConfig := Some {| config.keyBindingsFiles := None |} |}.

(** The element with its listener on the manager 0, which now holds
    [configNoFiles]. *)
Definition noFilesState : State :=
  run [Env_config 0%nat configNoFiles] attachedState.

(** * Properties *)

(** ** Strings *)

Lemma js_lt_irrefl (a : jsstring) : js_lt a a = false.
Proof.
  induction a as [|x a IH]; simpl; [reflexivity|].
  rewrite N.ltb_irrefl. exact IH.
Qed.

Lemma js_lt_asym (a b : jsstring) : js_lt a b = true -> js_lt b a = false.
Proof.
  revert b. induction a as [|x a IH]; intros [|y b]; simpl; try congruence.
  destruct (N.ltb_spec x y), (N.ltb_spec y x); try congruence; try lia.
  apply IH.
Qed.

(** [a <= b], as "not [b < a]", is transitive. *)
Lemma js_le_trans (a b c : jsstring) :
  js_lt b a = false -> js_lt c b = false -> js_lt c a = false.
Proof.
  revert b c. induction a as [|x a IH]; intros [|y b] [|z c]; simpl;
    try congruence.
  destruct (N.ltb_spec y x), (N.ltb_spec x y), (N.ltb_spec z y),
    (N.ltb_spec y z), (N.ltb_spec z x), (N.ltb_spec x z);
    try congruence; try lia.
  apply IH.
Qed.

Lemma js_le_total (a b : jsstring) : js_lt b a = false \/ js_lt a b = false.
Proof.
  destruct (js_lt b a) eqn:E; [right; by apply js_lt_asym | by left].
Qed.

Lemma join_empty_concat (parts : list jsstring) : join [] parts = concat parts.
Proof.
  induction parts as [|p [|q ps] IH]; simpl in *.
  - reflexivity.
  - by rewrite app_nil_r.
  - by rewrite IH.
Qed.

Lemma split_nonempty (sep : N) (s : jsstring) : split sep s <> [].
Proof.
  destruct s as [|c s]; simpl; [discriminate|].
  destruct (c =? sep); [discriminate|]. destruct (split sep s); discriminate.
Qed.

(** Joining the pieces with the separator gives the string back. *)
Lemma join_split (sep : N) (s : jsstring) : join [sep] (split sep s) = s.
Proof.
  induction s as [|c s IH]; simpl; [reflexivity|].
  destruct (N.eqb_spec c sep) as [->|Hne].
  - pose proof (split_nonempty sep s) as Hs.
    destruct (split sep s) as [|p ps]; [done|]. simpl in *. by rewrite IH.
  - pose proof (split_nonempty sep s) as Hs.
    destruct (split sep s) as [|p ps]; [done|].
    destruct ps; simpl in *; by rewrite <- IH.
Qed.

(** No piece contains the separator. *)
Lemma split_no_sep (sep : N) (s : jsstring) :
  Forall (fun p => sep ∉ p) (split sep s).
Proof.
  induction s as [|c s IH]; simpl.
  - repeat constructor. apply not_elem_of_nil.
  - destruct (N.eqb_spec c sep) as [->|Hne].
    + constructor; [apply not_elem_of_nil | exact IH].
    + pose proof (split_nonempty sep s) as Hs.
      destruct (split sep s) as [|p ps]; [done|].
      inversion IH; subst. constructor; [|done].
      rewrite not_elem_of_cons. split; [congruence | done].
Qed.

(** ** The sort *)

Section InsertionSortFacts.
Context {A : Type} (comparefn : A -> A -> Z).

Lemma insertBack_perm (x : A) (l : list A) :
  Permutation (x :: l) (insertBack comparefn x l).
Proof.
  induction l as [|y l IH]; simpl; [reflexivity|].
  destruct (0 <? comparefn y x)%Z; [|reflexivity].
  rewrite <- IH. apply perm_swap.
Qed.

Lemma insertionSort_perm (l : list A) :
  Permutation l (insertionSort comparefn l).
Proof.
  unfold insertionSort. rewrite <- Permutation_rev.
  enough (forall acc, Permutation (l ++ acc)
            (fold_left (fun sortedRev element =>
                          insertBack comparefn element sortedRev) l acc)) as H.
  { specialize (H []). by rewrite app_nil_r in H. }
  induction l as [|x l IH]; intros acc; simpl; [reflexivity|].
  rewrite <- IH, <- insertBack_perm.
  by rewrite Permutation_middle.
Qed.

Hypothesis comparefn_asym : forall a b,
  (0 <? comparefn a b)%Z = true -> inOrder comparefn b a.
Hypothesis inOrder_trans : forall a b c,
  inOrder comparefn a b -> inOrder comparefn b c -> inOrder comparefn a c.

Lemma insertBack_sorted (x : A) (l : list A) :
  StronglySorted (flip (inOrder comparefn)) l ->
  StronglySorted (flip (inOrder comparefn)) (insertBack comparefn x l).
Proof.
  induction l as [|y l IH]; simpl; intros Hl.
  - repeat constructor.
  - apply StronglySorted_cons in Hl as [Hy Hl].
    destruct (0 <? comparefn y x)%Z eqn:E.
    + apply StronglySorted_cons. split; [|by apply IH].
      rewrite <- (insertBack_perm x l). constructor; [|done].
      by apply comparefn_asym.
    + apply StronglySorted_cons. split.
      * constructor; [exact E|].
        eapply Forall_impl; [exact Hy|]. intros z Hz. unfold flip in *.
        by eapply inOrder_trans.
      * by apply StronglySorted_cons.
Qed.

Lemma StronglySorted_weaken (R R' : relation A) (l : list A) :
  (forall a b, R a b -> R' a b) ->
  StronglySorted R l -> StronglySorted R' l.
Proof.
  intros HR. induction 1 as [|x l Hl IH Hx]; constructor; [done|].
  eapply Forall_impl; eauto.
Qed.

Lemma StronglySorted_rev_flip (R : relation A) (l : list A) :
  StronglySorted (flip R) l -> StronglySorted R (rev l).
Proof.
  induction l as [|x l IH]; simpl; intros Hl; [constructor|].
  apply StronglySorted_cons in Hl as [Hx Hl].
  apply StronglySorted_app. split_and!.
  - intros a b Ha Hb. apply list_elem_of_singleton in Hb as ->.
    apply list_elem_of_In, in_rev, list_elem_of_In in Ha.
    rewrite Forall_forall in Hx. by apply Hx.
  - by apply IH.
  - repeat constructor.
Qed.

Lemma insertionSort_sorted (l : list A) :
  StronglySorted (inOrder comparefn) (insertionSort comparefn l).
Proof.
  unfold insertionSort. apply StronglySorted_rev_flip.
  enough (forall acc, StronglySorted (flip (inOrder comparefn)) acc ->
            StronglySorted (flip (inOrder comparefn))
              (fold_left (fun sortedRev element =>
                            insertBack comparefn element sortedRev) l acc)) as H.
  { apply H. constructor. }
  induction l as [|x l IH]; intros acc Hacc; simpl; [done|].
  apply IH. by apply insertBack_sorted.
Qed.
End InsertionSortFacts.

(** ** The formatters *)

Lemma compareBindings_inOrder (ht : HumanText) (a b : KeyBinding) :
  inOrder (compareBindings ht) a b <->
  js_gt (commandName ht (command a)) (commandName ht (command b)) = false.
Proof.
  unfold inOrder, compareBindings, js_gt.
  destruct (js_lt (commandName ht (command a)) (commandName ht (command b))) eqn:E.
  - apply js_lt_asym in E. by rewrite E.
  - destruct (js_lt (commandName ht (command b)) (commandName ht (command a)));
      cbv; split; congruence.
Qed.

Lemma compareBindings_asym (ht : HumanText) (a b : KeyBinding) :
  (0 <? compareBindings ht a b)%Z = true -> inOrder (compareBindings ht) b a.
Proof.
  intros H. apply compareBindings_inOrder. unfold js_gt.
  unfold compareBindings, js_gt in H.
  destruct (js_lt (commandName ht (command a)) (commandName ht (command b)))
    eqn:E; [discriminate|reflexivity].
Qed.

Lemma compareBindings_trans (ht : HumanText) (a b c : KeyBinding) :
  inOrder (compareBindings ht) a b -> inOrder (compareBindings ht) b c ->
  inOrder (compareBindings ht) a c.
Proof.
  rewrite !compareBindings_inOrder. unfold js_gt. intros Hab Hbc.
  eapply js_le_trans; eauto.
Qed.

(** What one call does: the clone is a new array, the sort fills it, the
    rows are made from it. *)
Lemma formatKeyBindingsMapping_run (platform : jsstring) (ht : HumanText)
    (context : KeyBindingMapping) (h : Heap) (bs : list KeyBinding) :
  h !! keyBindings context = Some bs ->
  formatKeyBindingsMapping platform ht context h =
    Return (tableHead ++
              join NL (map (formatRow platform ht)
                           (insertionSort (compareBindings ht) bs)) ++
              lit "</table>")
           (<[fresh (dom h) := insertionSort (compareBindings ht) bs]> h).
Proof.
  intros Hl.
  unfold formatKeyBindingsMapping, _clone, Array_sort, Array_read, bind, get,
    put, ret.
  rewrite Hl. rewrite lookup_insert_eq. rewrite insert_insert_eq.
  by rewrite lookup_insert_eq.
Qed.

(** C8. On a platform other than "darwin" [formatShortcut] returns the code
    as it is. On "darwin" the result is the concatenation, in order and with
    nothing between, of the pieces of the code between its [+] signs, each
    mapped: Cmd, Shift, Alt and Ctrl to U+2318, U+21E7, U+2325 and [^], any
    other piece to itself. The pieces are those of the code: joined with
    [+] they give the code back and none contains a [+]. So "Cmd+Shift+K"
    gives U+2318 U+21E7 K on darwin and itself on linux. *)
Theorem formatShortcut_spec (platform code : jsstring) :
  formatShortcut platform code =
    (if bool_decide (platform = darwin)
     then concat (map shortcutPart (split PLUS code))
     else code)
  /\ join [PLUS] (split PLUS code) = code
  /\ Forall (fun p => PLUS ∉ p) (split PLUS code)
  /\ shortcutPart (lit "Cmd") = [0x2318]
  /\ shortcutPart (lit "Shift") = [0x21E7]
  /\ shortcutPart (lit "Alt") = [0x2325]
  /\ shortcutPart (lit "Ctrl") = lit "^"
  /\ (forall p, p ∈ [lit "Cmd"; lit "Shift"; lit "Alt"; lit "Ctrl"]
                \/ shortcutPart p = p)
  /\ formatShortcut darwin (lit "Cmd+Shift+K") = [0x2318; 0x21E7; 75]
  /\ formatShortcut (lit "linux") (lit "Cmd+Shift+K") = lit "Cmd+Shift+K".
Proof.
  split_and!; try (vm_compute; reflexivity).
  - unfold formatShortcut. rewrite join_empty_concat.
    destruct (decide (platform = darwin)) as [->|Hne].
    + rewrite bool_decide_eq_false_2 by (intros H; by apply H).
      by rewrite bool_decide_eq_true_2.
    + rewrite bool_decide_eq_true_2 by done.
      by rewrite bool_decide_eq_false_2.
  - apply join_split.
  - apply split_no_sep.
  - intros p. unfold shortcutPart.
    repeat case_bool_decide; subst; try (by right);
      left; set_solver.
Qed.

Lemma formatRow_rowText (platform : jsstring) (ht : HumanText)
    (binding : KeyBinding) :
  formatRow platform ht binding
    = rowText (commandName ht (command binding))
              (formatShortcut platform (shortcut binding))
              (command binding).
Proof.
  unfold formatRow, rowText.
  generalize (commandName ht (command binding))
             (formatShortcut platform (shortcut binding)) (command binding).
  intros label shown code. vm_compute. reflexivity.
Qed.

Lemma formatKeyBindingsMapping_tableOfRows (platform : jsstring)
    (ht : HumanText) (context : KeyBindingMapping) (h : Heap)
    (bs : list KeyBinding) :
  h !! keyBindings context = Some bs ->
  formatKeyBindingsMapping platform ht context h =
    Return (tableOfRows platform ht (insertionSort (compareBindings ht) bs))
           (<[fresh (dom h) := insertionSort (compareBindings ht) bs]> h).
Proof.
  intros Hl. rewrite (formatKeyBindingsMapping_run platform ht context h bs Hl).
  unfold tableOfRows.
  by rewrite (map_ext _ _ (formatRow_rowText platform ht)).
Qed.

Lemma insertionSort_labelOrder (ht : HumanText) (bs : list KeyBinding) :
  StronglySorted (labelOrder ht) (insertionSort (compareBindings ht) bs).
Proof.
  apply (StronglySorted_weaken (inOrder (compareBindings ht))).
  - intros a b Hab. by apply compareBindings_inOrder.
  - apply insertionSort_sorted.
    + apply compareBindings_asym.
    + apply compareBindings_trans.
Qed.

(** C9. The table [formatKeyBindingsMapping] returns is the head, then the
    rows joined by newlines, then the closing tag. Each row shows the
    resolved label of a binding, its shortcut as formatted, and its command
    code, and the bindings of the rows are those of the context put in
    non-decreasing order of the label under [<] and [>] on strings, which
    compare code units. The label of a command is its entry in
    [humanText.commands]; the command code stands in for an empty entry and
    for a command found nowhere; a command named like an inherited member
    gets that member, converted to its string. So [zoom, copy] with the
    labels Zoom and Copy is shown as [copy, zoom], and a command
    [constructor] without label sorts under its member's text. *)
Theorem formatKeyBindingsMapping_sorted (platform : jsstring) (ht : HumanText)
    (context : KeyBindingMapping) (h : Heap) (bs : list KeyBinding) :
  h !! keyBindings context = Some bs ->
  (exists (rows : list KeyBinding) (h' : Heap),
     formatKeyBindingsMapping platform ht context h =
       Return (tableHead ++
               join NL (map (fun binding =>
                               rowText (commandName ht (command binding))
                                       (formatShortcut platform (shortcut binding))
                                       (command binding)) rows) ++
               lit "</table>") h'
     /\ Permutation bs rows
     /\ StronglySorted
          (fun a b => js_gt (commandName ht (command a))
                            (commandName ht (command b)) = false) rows)
  /\ (forall code : jsstring,
        commandName ht code =
          match commands ht !! code with
          | Some label => if bool_decide (label = []) then code else label
          | None => default code (objectPrototype ht !! code)
          end)
  /\ formatKeyBindingsMapping (lit "linux") exampleText
       {| keyBindings := 0%nat |} exampleHeap
     = Return (tableHead ++
               join NL [rowText (lit "Copy") (lit "Ctrl+C") (lit "copy");
                        rowText (lit "Zoom") (lit "Ctrl+Z") (lit "zoom")] ++
               lit "</table>")
              (<[1%nat := [copy; zoom]]> exampleHeap)
  /\ formatKeyBindingsMapping (lit "linux") noLabels
       {| keyBindings := 0%nat |} inheritedHeap
     = Return (tableHead ++
               join NL [rowText (lit "d") (lit "Ctrl+D") (lit "d");
                        rowText (lit "function Object() { [native code] }")
                                (lit "Ctrl+K") (lit "constructor")] ++
               lit "</table>")
              (<[1%nat := [dBinding; constructorBinding]]> inheritedHeap).
Proof.
  intros Hl. split_and!.
  - eexists _, _.
    split; [by apply formatKeyBindingsMapping_tableOfRows|].
    split; [apply insertionSort_perm|apply insertionSort_labelOrder].
  - intros code. unfold commandName.
    destruct (commands ht !! code); [reflexivity|].
    by destruct (objectPrototype ht !! code).
  - vm_compute. reflexivity.
  - vm_compute. reflexivity.
Qed.

Lemma formatKeyBindingsMapping_sorted_witness :
  exampleHeap !! 0%nat = Some [zoom; copy]
  /\ exists (rows : list KeyBinding) (h' : Heap),
    formatKeyBindingsMapping darwin exampleText {| keyBindings := 0%nat |}
        exampleHeap =
      Return (tableHead ++
              join NL (map (fun binding =>
                              rowText (commandName exampleText (command binding))
                                      (formatShortcut darwin (shortcut binding))
                                      (command binding)) rows) ++
              lit "</table>") h'
    /\ Permutation [zoom; copy] rows
    /\ StronglySorted
         (fun a b => js_gt (commandName exampleText (command a))
                           (commandName exampleText (command b)) = false) rows.
Proof.
  split; [reflexivity|].
  destruct (formatKeyBindingsMapping_sorted darwin exampleText
              {| keyBindings := 0%nat |} exampleHeap [zoom; copy] eq_refl)
    as [Hrows _].
  exact Hrows.
Defined.

(** The example of the specification: [zoom, copy] is shown as
    [copy, zoom]. *)
Example formatKeyBindingsMapping_zoom_copy :
  formatKeyBindingsMapping (lit "linux") exampleText {| keyBindings := 0%nat |}
      exampleHeap =
    Return (tableHead ++
              join NL (map (formatRow (lit "linux") exampleText) [copy; zoom]) ++
              lit "</table>")
           (<[1%nat := [copy; zoom]]> exampleHeap).
Proof. vm_compute. reflexivity. Qed.

(** Code units, not a collation: a capital letter sorts before every small
    one, so "Zoom" comes before "copy" when copy has no label. *)
Example formatKeyBindingsMapping_code_units :
  insertionSort
    (compareBindings {| contexts := [];
                        commands := {[ lit "zoom" := lit "Zoom" ]};
                        contextNames := ∅;
                        objectPrototype := ∅ |})
    [copy; zoom] = [zoom; copy].
Proof. vm_compute. reflexivity. Qed.

(** C10. [formatKeyBindingsMapping] sorts a clone: when it returns, the
    array of the context, and every other array there was, holds the same
    elements in the same order as before the call. *)
Theorem formatKeyBindingsMapping_input_unchanged (platform : jsstring)
    (ht : HumanText) (context : KeyBindingMapping) (h : Heap)
    (bs : list KeyBinding) :
  h !! keyBindings context = Some bs ->
  exists (out : jsstring) (h' : Heap),
    formatKeyBindingsMapping platform ht context h = Return out h'
    /\ h' !! keyBindings context = Some bs
    /\ forall l : nat, l ∈ dom h -> h' !! l = h !! l.
Proof.
  intros Hl. eexists _, _. split; [by apply formatKeyBindingsMapping_run|].
  assert (Hfresh : forall l : nat, l ∈ dom h -> fresh (dom h) <> l).
  { intros l Hin Heq. rewrite <- Heq in Hin. by apply (is_fresh (dom h)). }
  split.
  - rewrite lookup_insert_ne; [done|]. apply Hfresh, elem_of_dom. eauto.
  - intros l Hin. rewrite lookup_insert_ne; [done|]. by apply Hfresh.
Qed.

Lemma formatKeyBindingsMapping_input_unchanged_witness :
  exampleHeap !! 0%nat = Some [zoom; copy]
  /\ exists (out : jsstring) (h' : Heap),
    formatKeyBindingsMapping darwin exampleText {| keyBindings := 0%nat |}
        exampleHeap = Return out h'
    /\ h' !! 0%nat = Some [zoom; copy]
    /\ forall l : nat, l ∈ dom exampleHeap -> h' !! l = exampleHeap !! l.
Proof.
  split; [reflexivity|].
  apply (formatKeyBindingsMapping_input_unchanged darwin exampleText
           {| keyBindings := 0%nat |} exampleHeap [zoom; copy]).
  reflexivity.
Defined.

(** ** The element *)

(** Unfolds the methods and the monad down to the states. *)
Ltac js_unfold :=
  unfold chooseOption, _dataChanged, detachedCallback, setConfigManager,
    configChangeListener, _setConfig, _onKeyBindingChange,
    setKeyBindingManager, createdCallback, _initProperties, when,
    assign_keyBindingsContextsStamp, assign_keyBindingsFiles,
    assign_selectedKeyBindings, setConfig, getConfig, Date_now, getData,
    putThis, getThis, deref, emit, bind, ret, get, put, throw in *.

Ltac destruct_state s :=
  let cm := fresh "cm0" in
  let kbm := fresh "kbm0" in
  let sel := fresh "sel" in
  let files := fresh "files" in
  let stamp := fresh "stamp" in
  let cfgs := fresh "cfgs" in
  let nw := fresh "nw" in
  let tr := fresh "tr" in
  destruct s as [[cm kbm [sel files stamp]] [cfgs nw tr]]; simpl in *.

(** [_setConfig] on a config whose system config has a list: what it
    leaves. *)
Lemma _setConfig_returns (c : config.Config)
    (files : list config.KeyBindingInfo)
    (s : State) :
  config.profiles c = Some files ->
  _setConfig (Some c) s =
    Return tt
      {| this :=
           {| _configManager := _configManager (this s);
              _keyBindingManager := _keyBindingManager (this s);
              _data :=
                {| selectedKeyBindings :=
                     if bool_decide (selectedKeyBindings (_data (this s))
                                       ≠ config.keyBindingsFilename c)
                     then config.keyBindingsFilename c
                     else selectedKeyBindings (_data (this s));
                   keyBindingsFiles :=
                     if bool_decide (length (keyBindingsFiles (_data (this s)))
                                       ≠ length files)
                     then files
                     else keyBindingsFiles (_data (this s));
                   keyBindingsContextsStamp :=
                     keyBindingsContextsStamp (_data (this s)) |} |};
         world :=
           {| configs := configs (world s);
              now := now (world s);
              trace :=
                trace (world s) ++
                (if bool_decide (length (keyBindingsFiles (_data (this s)))
                                   ≠ length files)
                 then [Data_assign F_keyBindingsFiles] else []) ++
                (if bool_decide (selectedKeyBindings (_data (this s))
                                   ≠ config.keyBindingsFilename c)
                 then [Data_assign F_selectedKeyBindings] else []) |} |}.
Proof.
  intros Hsc. unfold config.profiles in Hsc.
  destruct (config.systemConfig c) as [sys|] eqn:Esys; [|discriminate].
  simpl in Hsc. destruct_state s. js_unfold. simpl.
  rewrite Esys. simpl. rewrite Hsc. simpl.
  repeat case_bool_decide; simpl in *; try congruence;
    rewrite ?app_nil_r, <- ?app_assoc; reflexivity.
Qed.

(** [_setConfig] on [null], or on a config without a system config or
    without the list of that, throws before it assigns anything. *)
Lemma _setConfig_throws (cfg : option config.Config) (s : State) :
  cfg ≫= config.profiles = None ->
  _setConfig cfg s = Throw TypeError s.
Proof.
  intros Hnone. destruct_state s. js_unfold. simpl.
  destruct cfg as [c|]; simpl in *; [|reflexivity].
  unfold config.profiles in Hnone.
  destruct (config.systemConfig c) as [sys|]; simpl in *; [|reflexivity].
  by rewrite Hnone.
Qed.

(** [_dataChanged] with a config manager that has a config. *)
Lemma _dataChanged_returns (newVal : ModelData) (cm : ref)
    (c : config.Config) (s : State) :
  _configManager (this s) = Some cm ->
  configs (world s) !! cm = Some c ->
  _dataChanged newVal s =
    Return tt
      (if bool_decide (config.keyBindingsFilename c ≠ selectedKeyBindings newVal)
       then
         let newConfig :=
           config.with_keyBindingsFilename (selectedKeyBindings newVal) c in
         {| this := this s;
            world := {| configs := <[cm := newConfig]> (configs (world s));
                        now := now (world s);
                        trace := trace (world s) ++ [CM_setConfig cm newConfig] |} |}
       else s).
Proof.
  intros Hcm Hc. destruct_state s. subst. js_unfold. simpl. rewrite Hc. simpl.
  case_bool_decide; reflexivity.
Qed.

Lemma filter_app_last {A} (f : A -> bool) (l : list A) (x : A) :
  List.filter f (l ++ [x]) = List.filter f l ++ (if f x then [x] else []).
Proof. rewrite List.filter_app. simpl. by destruct (f x). Qed.

(** C5. When a config manager tells of a change, the listener reads the
    manager's config again; the list of the model becomes the config's list
    exactly when the two lengths differ, the selected file becomes the
    config's [keyBindingsFilename] exactly when the two differ, each
    assignment made is seen once by the view, and nothing else changes; when
    neither test fires the state is as before. *)
Theorem configChange_updates_only_on_difference (cm : ref)
    (c : config.Config) (files : list config.KeyBindingInfo) (s : State) :
  configs (world s) !! cm = Some c ->
  config.profiles c = Some files ->
  let d := _data (this s) in
  let lengthDiffers :=
    bool_decide (length (keyBindingsFiles d)
                   ≠ length files) in
  let selectedDiffers :=
    bool_decide (selectedKeyBindings d ≠ config.keyBindingsFilename c) in
  exists s' : State,
    configChangeListener cm s = Return tt s'
    /\ keyBindingsFiles (_data (this s')) =
         (if lengthDiffers then files
          else keyBindingsFiles d)
    /\ selectedKeyBindings (_data (this s')) =
         (if selectedDiffers then config.keyBindingsFilename c
          else selectedKeyBindings d)
    /\ trace (world s') =
         trace (world s) ++
         (if lengthDiffers then [Data_assign F_keyBindingsFiles] else []) ++
         (if selectedDiffers then [Data_assign F_selectedKeyBindings] else [])
    /\ keyBindingsContextsStamp (_data (this s')) = keyBindingsContextsStamp d
    /\ _configManager (this s') = _configManager (this s)
    /\ _keyBindingManager (this s') = _keyBindingManager (this s)
    /\ configs (world s') = configs (world s)
    /\ now (world s') = now (world s)
    /\ (lengthDiffers = false -> selectedDiffers = false -> s' = s).
Proof.
  intros Hc Hsc d lengthDiffers selectedDiffers.
  eexists. split.
  { unfold configChangeListener, getConfig, bind. rewrite Hc.
    by apply _setConfig_returns. }
  simpl. split_and!; try reflexivity.
  fold d. fold lengthDiffers. fold selectedDiffers.
  intros -> ->. rewrite app_nil_r. by destruct_state s.
Qed.

Lemma configChange_updates_only_on_difference_witness :
  configs (world attachedState) !! 0%nat = Some configA
  /\ config.profiles configA = Some [profileA]
  /\ exists s' : State,
    configChangeListener 0%nat attachedState = Return tt s'
    /\ keyBindingsFiles (_data (this s')) = [profileA]
    /\ selectedKeyBindings (_data (this s')) = lit "a.json"
    /\ trace (world s') = trace (world attachedState).
Proof.
  destruct (configChange_updates_only_on_difference 0%nat configA
              [profileA] attachedState
              eq_refl eq_refl)
    as (s' & Hrun & Hfiles & Hsel & Htrace & _).
  split; [reflexivity|]. split; [reflexivity|].
  exists s'. split_and!; [exact Hrun|exact Hfiles|exact Hsel|].
  rewrite Htrace. apply app_nil_r.
Defined.

(** C7 (as the code has it). Neither handler catches anything. The key
    binding handler always returns. The config listener returns when the
    manager's config, its system config and the list [keyBindingsFiles] of
    that are all there; when one of the three is [null] or [undefined] the
    TypeError goes to the caller, nothing having been assigned. *)
Theorem handlers_exceptions (cm : ref) (s : State) :
  returned (_onKeyBindingChange s) = true
  /\ match configs (world s) !! cm ≫= config.profiles with
     | Some _ => returned (configChangeListener cm s) = true
     | None => configChangeListener cm s = Throw TypeError s
     end.
Proof.
  split; [reflexivity|].
  destruct (configs (world s) !! cm ≫= config.profiles) as [files|] eqn:E.
  - destruct (configs (world s) !! cm) as [c|] eqn:Ec; [|discriminate].
    simpl in E. unfold configChangeListener, getConfig, bind. rewrite Ec.
    by rewrite (_setConfig_returns c files s E).
  - unfold configChangeListener, getConfig, bind.
    by apply _setConfig_throws.
Qed.

(** C7, the claim refuted: the listener is registered on the manager 0; the
    manager's config comes without a system config, or with a system config
    that has no list, or [getConfig()] returns [null]; the listener throws
    to its caller. *)
Lemma configChangeListener_throws :
  managerCalls noSystemState
    = [KBM_registerChangeListener 1%nat; CM_registerChangeListener 0%nat]
  /\ configChangeListener 0%nat noSystemState = Throw TypeError noSystemState
  /\ returned (configChangeListener 0%nat noSystemState) = false
  /\ configChangeListener 0%nat noFilesState = Throw TypeError noFilesState
  /\ returned (configChangeListener 0%nat noFilesState) = false
  /\ returned (configChangeListener 0%nat (created emptyWorld)) = false.
Proof. split_and!; reflexivity. Qed.

(** C2 (as the code has it). [_dataChanged] does not look at the list of
    profiles. For every selected file, in the list or not, and a config
    manager that has a config, it returns, leaves the element as it is, and
    calls [setConfig] once, with the config changed to that file, exactly
    when the file differs from the stored [keyBindingsFilename]. *)
Theorem _dataChanged_any_filename (newVal : ModelData) (cm : ref)
    (c : config.Config) (s : State) :
  _configManager (this s) = Some cm ->
  configs (world s) !! cm = Some c ->
  exists s' : State,
    _dataChanged newVal s = Return tt s'
    /\ this s' = this s
    /\ setConfigCalls s' =
         setConfigCalls s ++
         (if bool_decide (config.keyBindingsFilename c
                            ≠ selectedKeyBindings newVal)
          then [CM_setConfig cm (config.with_keyBindingsFilename
                                   (selectedKeyBindings newVal) c)]
          else []).
Proof.
  intros Hcm Hc. eexists. split; [by apply _dataChanged_returns|].
  unfold setConfigCalls. case_bool_decide; simpl.
  - split; [reflexivity|]. by rewrite filter_app_last.
  - by rewrite app_nil_r.
Qed.

Lemma _dataChanged_any_filename_witness :
  _configManager (this attachedState) = Some 0%nat
  /\ configs (world attachedState) !! 0%nat = Some configA
  /\ exists s' : State,
    _dataChanged unlistedSelection attachedState = Return tt s'
    /\ this s' = this attachedState
    /\ setConfigCalls s' =
         [CM_setConfig 0%nat
            (config.with_keyBindingsFilename (lit "zzz.json") configA)].
Proof.
  split; [reflexivity|]. split; [reflexivity|].
  apply (_dataChanged_any_filename unlistedSelection 0%nat configA
           attachedState); reflexivity.
Defined.

(** C2, the claim refuted: a file that no entry of the list has is selected,
    and the call returns and submits it; so it is when the data passed is
    the element's own, after a run that left an unlisted file selected. *)
Lemma _dataChanged_unlisted_submits :
  (selectedKeyBindings unlistedSelection
     ∉ map config.filename (keyBindingsFiles (_data (this attachedState))))
  /\ returned (_dataChanged unlistedSelection attachedState) = true
  /\ setConfigCalls (finalState (_dataChanged unlistedSelection attachedState))
     = [CM_setConfig 0%nat
          (config.with_keyBindingsFilename (lit "zzz.json") configA)]
  /\ (selectedKeyBindings (_data (this unlistedState))
        ∉ map config.filename (keyBindingsFiles (_data (this unlistedState))))
  /\ returned (_dataChanged (_data (this unlistedState)) unlistedState) = true
  /\ setConfigCalls
       (finalState (_dataChanged (_data (this unlistedState)) unlistedState))
     = [CM_setConfig 0%nat
          (config.with_keyBindingsFilename (lit "b.json") configA)].
Proof.
  split_and!; try reflexivity;
    apply (bool_decide_eq_false_1 _); vm_compute; reflexivity.
Qed.

Lemma app_one_neq {A} (l : list A) (x : A) : l ++ [x] <> l.
Proof.
  intros H. apply (f_equal length) in H. rewrite length_app in H.
  simpl in H. lia.
Qed.

(** C3. When the selected file is the [keyBindingsFilename] of the config
    the manager holds, [_dataChanged] makes no [setConfig] call (it changes
    nothing at all), and so does choosing the option of that file; a
    [setConfig] call is made only for a file that differs from the stored
    one. *)
Theorem _dataChanged_same_filename_no_setConfig (newVal : ModelData)
    (cm : ref) (c : config.Config) (s : State) :
  _configManager (this s) = Some cm ->
  configs (world s) !! cm = Some c ->
  selectedKeyBindings newVal = config.keyBindingsFilename c ->
  _dataChanged newVal s = Return tt s
  /\ (forall option : config.KeyBindingInfo,
        config.filename option = config.keyBindingsFilename c ->
        returned (chooseOption option s) = true
        /\ setConfigCalls (finalState (chooseOption option s))
           = setConfigCalls s)
  /\ (forall other : ModelData,
        setConfigCalls (finalState (_dataChanged other s)) <> setConfigCalls s
        <-> selectedKeyBindings other <> config.keyBindingsFilename c).
Proof.
  intros Hcm Hc Hsel. split_and!.
  - rewrite (_dataChanged_returns newVal cm c s Hcm Hc).
    rewrite bool_decide_eq_false_2; [reflexivity|]. intros H. by apply H.
  - intros option Hopt. unfold chooseOption, bind.
    destruct (assign_selectedKeyBindings (config.filename option) s)
      as [[] s1|] eqn:E1; [|destruct_state s; discriminate].
    assert (Hs1 : _configManager (this s1) = Some cm
                  /\ configs (world s1) !! cm = Some c
                  /\ selectedKeyBindings (_data (this s1)) = config.filename option
                  /\ setConfigCalls s1 = setConfigCalls s).
    { destruct_state s. js_unfold. simpl in E1. inversion E1; subst; simpl.
      split_and!; try done. unfold setConfigCalls. simpl.
      rewrite filter_app_last. simpl. by rewrite app_nil_r. }
    destruct Hs1 as (Hcm1 & Hc1 & Hsel1 & Hcalls1).
    unfold getData.
    rewrite (_dataChanged_returns _ cm c s1 Hcm1 Hc1).
    rewrite bool_decide_eq_false_2; [by split|].
    intros H. apply H. congruence.
  - intros other. rewrite (_dataChanged_returns other cm c s Hcm Hc).
    case_bool_decide as Hd; simpl.
    + split; [intros _; congruence|]. intros _. unfold setConfigCalls. simpl.
      rewrite filter_app_last. simpl. apply app_one_neq.
    + split; [done|]. intros Hne. destruct Hd. congruence.
Qed.

Lemma _dataChanged_same_filename_no_setConfig_witness :
  _configManager (this attachedState) = Some 0%nat
  /\ configs (world attachedState) !! 0%nat = Some configA
  /\ selectedKeyBindings (_data (this attachedState))
     = config.keyBindingsFilename configA
  /\ _dataChanged (_data (this attachedState)) attachedState
     = Return tt attachedState.
Proof.
  split; [reflexivity|]. split; [reflexivity|]. split; [reflexivity|].
  apply (_dataChanged_same_filename_no_setConfig (_data (this attachedState))
           0%nat configA attachedState); reflexivity.
Defined.

(** C4 (as the code has it). Neither setter fails when it is called again.
    For a config manager that has a config with a list of profiles,
    [setConfigManager] returns, having called [registerChangeListener] on
    the manager given exactly once. [setKeyBindingManager] returns, having
    first called [unregisterChangeListener] on the manager held before, if
    there was one, and then [registerChangeListener] on the new one, exactly
    once. *)
Theorem setManagers_register_once (cm kbm : ref) (c : config.Config)
    (files : list config.KeyBindingInfo) (s : State) :
  configs (world s) !! cm = Some c ->
  config.profiles c = Some files ->
  exists s1 s2 : State,
    setConfigManager (Some cm) s = Return tt s1
    /\ callsOf (CM_registerChangeListener cm) s1
       = S (callsOf (CM_registerChangeListener cm) s)
    /\ _configManager (this s1) = Some cm
    /\ setKeyBindingManager (Some kbm) s = Return tt s2
    /\ trace (world s2) =
         trace (world s) ++
         match _keyBindingManager (this s) with
         | Some old => [KBM_unregisterChangeListener old]
         | None => []
         end ++ [KBM_registerChangeListener kbm]
    /\ callsOf (KBM_registerChangeListener kbm) s2
       = S (callsOf (KBM_registerChangeListener kbm) s)
    /\ _keyBindingManager (this s2) = Some kbm.
Proof.
  intros Hc Hsc.
  assert (Hset : exists s1, setConfigManager (Some cm) s = Return tt s1
            /\ callsOf (CM_registerChangeListener cm) s1
               = S (callsOf (CM_registerChangeListener cm) s)
            /\ _configManager (this s1) = Some cm).
  { unfold setConfigManager, getThis, putThis, deref, emit, getConfig, bind,
      ret. simpl. rewrite Hc.
    rewrite (_setConfig_returns c files _ Hsc). simpl.
    eexists. split; [reflexivity|]. split; [|reflexivity].
    unfold callsOf. simpl.
    rewrite !List.filter_app, !length_app. simpl.
    rewrite bool_decide_eq_true_2 by done.
    repeat case_bool_decide; simpl; try discriminate; lia. }
  destruct Hset as (s1 & H1 & H2 & H3). exists s1.
  destruct_state s. unfold callsOf.
  destruct kbm0 as [old|]; eexists; (split_and!; [exact H1|exact H2|exact H3|
    reflexivity| | |reflexivity]); simpl; rewrite <- ?app_assoc;
    try reflexivity;
    rewrite !List.filter_app, !length_app; simpl;
    rewrite (bool_decide_eq_true_2 (KBM_registerChangeListener kbm = _)) by done;
    repeat case_bool_decide; simpl; try discriminate; lia.
Qed.

Lemma setManagers_register_once_witness :
  configs (world attachedState) !! 0%nat = Some configA
  /\ config.profiles configA = Some [profileA]
  /\ exists s1 s2 : State,
    setConfigManager (Some 0%nat) attachedState = Return tt s1
    /\ callsOf (CM_registerChangeListener 0%nat) s1 = 2%nat
    /\ _configManager (this s1) = Some 0%nat
    /\ setKeyBindingManager (Some 1%nat) attachedState = Return tt s2
    /\ trace (world s2) =
         trace (world attachedState) ++
         [KBM_unregisterChangeListener 1%nat] ++
         [KBM_registerChangeListener 1%nat]
    /\ callsOf (KBM_registerChangeListener 1%nat) s2 = 2%nat
    /\ _keyBindingManager (this s2) = Some 1%nat.
Proof.
  split; [reflexivity|]. split; [reflexivity|].
  apply (setManagers_register_once 0%nat 1%nat configA
           [profileA] attachedState);
    reflexivity.
Defined.

(** C4, the claim refuted: with both managers set and no detach since, each
    setter called again returns. *)
Lemma second_attach_returns :
  managerCalls attachedState
    = [KBM_registerChangeListener 1%nat; CM_registerChangeListener 0%nat]
  /\ returned (setConfigManager (Some 0%nat) attachedState) = true
  /\ returned (setKeyBindingManager (Some 1%nat) attachedState) = true.
Proof. split_and!; reflexivity. Qed.

Lemma last_cons_default {A} (x d : A) (l : list A) :
  List.last (x :: l) d = List.last l x.
Proof.
  revert x d. induction l as [|y l IH]; intros x d; [reflexivity|].
  change (List.last (x :: y :: l) d) with (List.last (y :: l) d).
  by rewrite !IH.
Qed.

(** C1 (as the code has it). Each call of [_onKeyBindingChange] assigns the
    reading of the clock to the stamp, whatever the bindings are: after the
    calls the stamp is the clock's reading at the last of them (after none,
    the stamp as it was), the view has seen one assignment per call, and the
    rest of the model is as before. *)
Theorem keyBindingChanges_stamp (readings : list Z) (s : State) :
  stampOf (run (keyBindingChanges readings) s)
    = List.last readings (stampOf s)
  /\ trace (world (run (keyBindingChanges readings) s))
     = trace (world s) ++
       replicate (length readings) (Data_assign F_keyBindingsContextsStamp)
  /\ selectedKeyBindings (_data (this (run (keyBindingChanges readings) s)))
     = selectedKeyBindings (_data (this s))
  /\ keyBindingsFiles (_data (this (run (keyBindingChanges readings) s)))
     = keyBindingsFiles (_data (this s)).
Proof.
  revert s. induction readings as [|t readings IH]; intros s.
  - simpl. by rewrite app_nil_r.
  - change (run (keyBindingChanges (t :: readings)) s)
      with (run (keyBindingChanges readings)
                (exec On_keyBindingChange (exec (Env_clock t) s))).
    destruct (IH (exec On_keyBindingChange (exec (Env_clock t) s)))
      as (Hstamp & Htrace & Hsel & Hfiles).
    rewrite Hstamp, Htrace, Hsel, Hfiles. rewrite last_cons_default.
    destruct_state s. split_and!; try reflexivity.
    by rewrite <- app_assoc.
Qed.

(** C1, the claim refuted: one call moves the stamp from 0 to the clock's
    2000, not to 1; and a clock set back moves the stamp back. *)
Lemma keyBindingChange_not_increment :
  stampOf (created emptyWorld) = 0%Z
  /\ stampOf (run (keyBindingChanges [2000%Z]) (created emptyWorld))
     <> (stampOf (created emptyWorld) + 1)%Z
  /\ (stampOf (run (keyBindingChanges [2000%Z; 1000%Z]) (created emptyWorld))
      < stampOf (run (keyBindingChanges [2000%Z]) (created emptyWorld)))%Z.
Proof. split_and!; [reflexivity|discriminate|reflexivity]. Qed.

Lemma _dataChanged_this (newVal : ModelData) (s : State) :
  this (finalState (_dataChanged newVal s)) = this s.
Proof.
  destruct_state s. js_unfold. destruct cm0 as [cm|]; simpl; [|reflexivity].
  destruct (cfgs !! cm) as [c|]; simpl; [|reflexivity].
  case_bool_decide; reflexivity.
Qed.

Lemma if_differs_then_new {A} `{EqDecision A} (old new : A) :
  (if bool_decide (old ≠ new) then new else old) = new.
Proof.
  destruct (decide (old = new)) as [->|Hne].
  - by destruct (bool_decide _).
  - by rewrite bool_decide_eq_true_2.
Qed.

Lemma _setConfig_keeps_listed (cfg : option config.Config) (s : State) :
  selectionListed (_data (this s)) ->
  agrees (_data (this s)) cfg ->
  selectionListed (_data (this (finalState (_setConfig cfg s)))).
Proof.
  intros Hinv Hagree.
  destruct (cfg ≫= config.profiles) as [files|] eqn:E.
  - destruct cfg as [c|]; [|discriminate]. simpl in E, Hagree.
    rewrite E in Hagree. destruct Hagree as [Hwf Hlist].
    rewrite (_setConfig_returns c files s E). unfold selectionListed. simpl.
    assert (Hsel : (if bool_decide (selectedKeyBindings (_data (this s))
                                      ≠ config.keyBindingsFilename c)
                    then config.keyBindingsFilename c
                    else selectedKeyBindings (_data (this s)))
                   = config.keyBindingsFilename c).
    { apply if_differs_then_new. }
    rewrite Hsel.
    assert (Hfiles : (if bool_decide (length (keyBindingsFiles (_data (this s)))
                                        ≠ length files)
                      then files
                      else keyBindingsFiles (_data (this s)))
                     = files).
    { destruct Hlist as [Hne|Heq].
      - by rewrite bool_decide_eq_true_2.
      - rewrite Heq. by destruct (bool_decide (length _ ≠ length _)). }
    by rewrite Hfiles.
  - by rewrite (_setConfig_throws cfg s E).
Qed.

(** C6 (as the code has it). The selected file is the empty string when the
    element is created, and stays empty or the file of an entry of the
    model's list through every action, as long as each config handed to
    [_setConfig] names one of its own entries (or nothing) and has a list
    that differs in length from the model's or is the model's. *)
Theorem reachable_selectionListed (s : State) :
  reachable s -> selectionListed (_data (this s)).
Proof.
  induction 1 as [w|s a Hreach IH Hadm].
  - left. reflexivity.
  - destruct a as [[cm|]| m | | cm | | | i | cm c | t]; unfold exec, perform.
    + (* setConfigManager on a manager *)
      simpl in Hadm.
      change (finalState (setConfigManager (Some cm) s)) with
        (finalState
           (_setConfig (configs (world s) !! cm)
              {| this := {| _configManager := Some cm;
                            _keyBindingManager := _keyBindingManager (this s);
                            _data := _data (this s) |};
                 world := {| configs := configs (world s);
                             now := now (world s);
                             trace := trace (world s)
                                        ++ [CM_registerChangeListener cm] |} |})).
      by apply _setConfig_keeps_listed.
    + (* setConfigManager(null) throws at the registration *)
      exact IH.
    + (* setKeyBindingManager *)
      destruct_state s. by destruct kbm0, m.
    + (* detachedCallback *)
      destruct_state s. by destruct cm0, kbm0.
    + (* the config listener *)
      simpl in Hadm. unfold configChangeListener, getConfig, bind.
      by apply _setConfig_keeps_listed.
    + (* _onKeyBindingChange *)
      exact IH.
    + (* the watcher *)
      unfold getData, bind. by rewrite _dataChanged_this.
    + (* an option is chosen *)
      unfold getData, bind.
      destruct (keyBindingsFiles (_data (this s)) !! i) as [option|] eqn:Ei;
        [|exact IH].
      unfold chooseOption, bind.
      destruct (assign_selectedKeyBindings (config.filename option) s)
        as [[] s1|] eqn:E1; [|destruct_state s; discriminate].
      unfold getData. rewrite _dataChanged_this.
      destruct_state s. js_unfold. simpl in E1. inversion E1; subst; simpl.
      right. apply list_elem_of_fmap. exists option. split; [done|].
      apply list_elem_of_lookup. by exists i.
    + exact IH.
    + exact IH.
Qed.

Lemma reachable_selectionListed_witness :
  reachable attachedState /\ selectionListed (_data (this attachedState)).
Proof.
  assert (Hreach : reachable attachedState); [|split; [exact Hreach|
    exact (reachable_selectionListed attachedState Hreach)]].
  apply (reach_step _ (Do_setConfigManager (Some 0%nat))).
  - apply (reach_step _ (Do_setKeyBindingManager (Some 1%nat))).
    + apply (reach_step _ (Env_config 0%nat configA)).
      * apply reach_created.
      * exact I.
    + exact I.
  - split.
    + right. apply list_elem_of_here.
    + left. simpl. lia.
Defined.

(** C6, the claim refuted: the manager's config goes from one profile to
    another one; the lists are equally long, so the model keeps the old
    list and takes the new selected file, which no entry of it has. *)
Lemma stale_list_selection_unlisted :
  keyBindingsFiles (_data (this staleState)) = [profileA]
  /\ selectedKeyBindings (_data (this staleState)) = lit "b.json"
  /\ ~ selectionListed (_data (this staleState)).
Proof.
  split_and!; [reflexivity|reflexivity|].
  apply (bool_decide_eq_false_1 _). vm_compute. reflexivity.
Qed.

(** * Further properties *)

(** ** The shortcut formatter *)

Lemma formatShortcut_darwin (code : jsstring) :
  formatShortcut darwin code = concat (map shortcutPart (split PLUS code)).
Proof.
  unfold formatShortcut. rewrite join_empty_concat.
  rewrite bool_decide_eq_false_2; [reflexivity|]. intros H. by apply H.
Qed.

Lemma not_elem_of_concat {A} (x : A) (ls : list (list A)) :
  Forall (fun l => x ∉ l) ls -> x ∉ concat ls.
Proof.
  induction 1 as [|l ls Hl Hls IH]; simpl.
  - apply not_elem_of_nil.
  - rewrite not_elem_of_app. by split.
Qed.

Lemma shortcutPart_no_plus (p : jsstring) : PLUS ∉ p -> PLUS ∉ shortcutPart p.
Proof.
  intros Hp. unfold shortcutPart.
  repeat case_bool_decide; try done;
    apply (bool_decide_eq_false_1 _); vm_compute; reflexivity.
Qed.

Lemma shortcutPart_length (p : jsstring) :
  (length (shortcutPart p) <= length p)%nat.
Proof.
  unfold shortcutPart.
  repeat case_bool_decide; subst; try (vm_compute; lia); lia.
Qed.

Lemma split_app (sep : N) (a b : jsstring) :
  split sep (a ++ sep :: b) = split sep a ++ split sep b.
Proof.
  induction a as [|c a IH]; simpl.
  - by rewrite N.eqb_refl.
  - destruct (c =? sep); [by rewrite IH|].
    rewrite IH. pose proof (split_nonempty sep a) as Ha.
    by destruct (split sep a).
Qed.

Lemma split_concat_length (sep : N) (s : jsstring) :
  (length (concat (split sep s)) <= length s)%nat.
Proof.
  induction s as [|c s IH]; simpl; [lia|].
  destruct (c =? sep); simpl; [lia|].
  pose proof (split_nonempty sep s) as Hs.
  destruct (split sep s) as [|p ps]; [done|]. simpl in *. lia.
Qed.

(** X1. On darwin the formatted shortcut holds no [+]: the separators are
    dropped, and so is a [+] that stands for the plus key itself. *)
Theorem formatShortcut_darwin_no_plus (code : jsstring) :
  PLUS ∉ formatShortcut darwin code.
Proof.
  rewrite formatShortcut_darwin. apply not_elem_of_concat.
  apply Forall_map. eapply Forall_impl; [apply split_no_sep|].
  intros p Hp. by apply shortcutPart_no_plus.
Qed.

(** X2. On darwin formatting goes piece by piece: the shortcut [a+b] is
    formatted as [a] formatted followed by [b] formatted. *)
Theorem formatShortcut_darwin_app (a b : jsstring) :
  formatShortcut darwin (a ++ [PLUS] ++ b)
    = formatShortcut darwin a ++ formatShortcut darwin b.
Proof.
  rewrite !formatShortcut_darwin. simpl.
  by rewrite split_app, map_app, concat_app.
Qed.

(** X3. On every platform the formatted shortcut is no longer, in code
    units, than its code. *)
Theorem formatShortcut_length (platform code : jsstring) :
  (length (formatShortcut platform code) <= length code)%nat.
Proof.
  destruct (decide (platform = darwin)) as [->|Hne].
  - rewrite formatShortcut_darwin.
    etransitivity; [|apply (split_concat_length PLUS)].
    induction (split PLUS code) as [|p ps IH]; simpl; [lia|].
    rewrite !length_app. pose proof (shortcutPart_length p). lia.
  - unfold formatShortcut. by rewrite bool_decide_eq_true_2.
Qed.

(** ** The comparison of bindings *)

Lemma js_lt_neither_eq (a b : jsstring) :
  js_lt a b = false -> js_lt b a = false -> a = b.
Proof.
  revert b. induction a as [|x a IH]; intros [|y b]; simpl; try congruence.
  destruct (N.ltb_spec x y), (N.ltb_spec y x); try congruence; try lia.
  intros Hab Hba. assert (x = y) as -> by lia. f_equal. by apply IH.
Qed.

(** X4. The comparison function given to [sort] is consistent: it returns
    -1, 0 or 1, swapping the arguments negates the result, and it returns 0
    exactly when the two commands have the same name. *)
Theorem compareBindings_consistent (ht : HumanText) (a b : KeyBinding) :
  compareBindings ht a b = (- compareBindings ht b a)%Z
  /\ compareBindings ht a b ∈ [(-1)%Z; 0%Z; 1%Z]
  /\ (compareBindings ht a b = 0%Z
      <-> commandName ht (command a) = commandName ht (command b)).
Proof.
  unfold compareBindings, js_gt.
  destruct (js_lt (commandName ht (command a)) (commandName ht (command b)))
    eqn:Eab;
  destruct (js_lt (commandName ht (command b)) (commandName ht (command a)))
    eqn:Eba.
  - apply js_lt_asym in Eab. congruence.
  - split_and!; [reflexivity|set_solver|].
    split; [discriminate|]. intros Heq. rewrite Heq, js_lt_irrefl in Eab.
    discriminate.
  - split_and!; [reflexivity|set_solver|].
    split; [discriminate|]. intros Heq. rewrite Heq, js_lt_irrefl in Eba.
    discriminate.
  - split_and!; [reflexivity|set_solver|].
    split; [|done]. intros _. by apply js_lt_neither_eq.
Qed.

(** ** The table and the page *)

Lemma formatKeyBindingsMapping_no_array_run (platform : jsstring)
    (ht : HumanText) (mapping : KeyBindingMapping) (h : Heap) :
  h !! keyBindings mapping = None ->
  formatKeyBindingsMapping platform ht mapping h = Throw TypeError h.
Proof.
  intros Hl.
  unfold formatKeyBindingsMapping, _clone, Array_read, bind. by rewrite Hl.
Qed.

(** X5. When the context's [keyBindings] is no array, the table formatter
    throws a TypeError and leaves the heap as it was: nothing was cloned. *)
Theorem formatKeyBindingsMapping_no_array (platform : jsstring)
    (ht : HumanText) (mapping : KeyBindingMapping) (h : Heap) :
  h !! keyBindings mapping = None ->
  formatKeyBindingsMapping platform ht mapping h = Throw TypeError h.
Proof. apply formatKeyBindingsMapping_no_array_run. Qed.

Lemma formatKeyBindingsMapping_no_array_witness :
  exampleHeap !! 7%nat = None
  /\ formatKeyBindingsMapping darwin exampleText {| keyBindings := 7%nat |}
       exampleHeap = Throw TypeError exampleHeap.
Proof.
  split; [reflexivity|].
  apply (formatKeyBindingsMapping_no_array darwin exampleText
           {| keyBindings := 7%nat |} exampleHeap).
  reflexivity.
Defined.

(** X6. A context without bindings gives the table head directly followed
    by the closing tag, with no row and no newline between. *)
Theorem formatKeyBindingsMapping_no_bindings (platform : jsstring)
    (ht : HumanText) (mapping : KeyBindingMapping) (h : Heap) :
  h !! keyBindings mapping = Some [] ->
  exists h' : Heap,
    formatKeyBindingsMapping platform ht mapping h
      = Return (tableHead ++ lit "</table>") h'.
Proof.
  intros Hl. eexists.
  by rewrite (formatKeyBindingsMapping_run platform ht mapping h [] Hl).
Qed.

Lemma formatKeyBindingsMapping_no_bindings_witness :
  ({[ 3%nat := [] ]} : Heap) !! 3%nat = Some []
  /\ exists h' : Heap,
       formatKeyBindingsMapping darwin exampleText {| keyBindings := 3%nat |}
         {[ 3%nat := [] ]} = Return (tableHead ++ lit "</table>") h'.
Proof.
  split; [reflexivity|].
  apply (formatKeyBindingsMapping_no_bindings darwin exampleText
           {| keyBindings := 3%nat |} {[ 3%nat := [] ]}).
  reflexivity.
Defined.

Lemma insertionSort_order_independent (ht : HumanText)
    (bs1 bs2 : list KeyBinding) :
  Permutation bs1 bs2 ->
  (forall a b, a ∈ bs1 -> b ∈ bs1 ->
     commandName ht (command a) = commandName ht (command b) -> a = b) ->
  insertionSort (compareBindings ht) bs1 = insertionSort (compareBindings ht) bs2.
Proof.
  intros Hperm Hinj.
  apply (StronglySorted_unique_strong (inOrder (compareBindings ht))).
  - intros x1 x2 Hx1 Hx2 H12 H21.
    apply Hinj.
    + apply list_elem_of_In.
      apply (Permutation_in x1
               (Permutation_sym (insertionSort_perm (compareBindings ht) bs1))).
      by apply list_elem_of_In.
    + apply list_elem_of_In.
      apply (Permutation_in x2 (Permutation_sym Hperm)).
      apply (Permutation_in x2
               (Permutation_sym (insertionSort_perm (compareBindings ht) bs2))).
      by apply list_elem_of_In.
    + apply compareBindings_inOrder in H12, H21. unfold js_gt in *.
      by apply js_lt_neither_eq.
  - apply insertionSort_sorted;
      [apply compareBindings_asym | apply compareBindings_trans].
  - apply insertionSort_sorted;
      [apply compareBindings_asym | apply compareBindings_trans].
  - by rewrite <- !insertionSort_perm.
Qed.

(** X7. The table does not depend on the order of the bindings in the
    array: two arrays with the same bindings, no two of which share a
    command name, give the same table. *)
Theorem formatKeyBindingsMapping_order_independent (platform : jsstring)
    (ht : HumanText) (m1 m2 : KeyBindingMapping) (h1 h2 : Heap)
    (bs1 bs2 : list KeyBinding) :
  h1 !! keyBindings m1 = Some bs1 ->
  h2 !! keyBindings m2 = Some bs2 ->
  Permutation bs1 bs2 ->
  (forall a b, a ∈ bs1 -> b ∈ bs1 ->
     commandName ht (command a) = commandName ht (command b) -> a = b) ->
  exists (out : jsstring) (h1' h2' : Heap),
    formatKeyBindingsMapping platform ht m1 h1 = Return out h1'
    /\ formatKeyBindingsMapping platform ht m2 h2 = Return out h2'.
Proof.
  intros Hl1 Hl2 Hperm Hinj.
  rewrite (formatKeyBindingsMapping_run platform ht m1 h1 bs1 Hl1).
  rewrite (formatKeyBindingsMapping_run platform ht m2 h2 bs2 Hl2).
  rewrite (insertionSort_order_independent ht bs1 bs2 Hperm Hinj).
  by eexists _, _, _.
Qed.

Lemma formatKeyBindingsMapping_order_independent_witness :
  exists (out : jsstring) (h1' h2' : Heap),
    formatKeyBindingsMapping darwin exampleText {| keyBindings := 0%nat |}
      exampleHeap = Return out h1'
    /\ formatKeyBindingsMapping darwin exampleText {| keyBindings := 0%nat |}
         swappedHeap = Return out h2'.
Proof.
  apply (formatKeyBindingsMapping_order_independent darwin exampleText
           {| keyBindings := 0%nat |} {| keyBindings := 0%nat |}
           exampleHeap swappedHeap [zoom; copy] [copy; zoom]).
  - reflexivity.
  - reflexivity.
  - apply perm_swap.
  - intros a b Ha Hb.
    apply list_elem_of_In in Ha, Hb. simpl in Ha, Hb.
    destruct Ha as [<-|[<-|[]]], Hb as [<-|[<-|[]]];
      first [intros _; reflexivity
            | intros Heq; vm_compute in Heq; discriminate].
Defined.

Lemma fresh_insert_subseteq (h : Heap) (arr : list KeyBinding) :
  h ⊆ <[fresh (dom h) := arr]> h.
Proof. apply insert_subseteq, not_elem_of_dom, is_fresh. Qed.

(** One section only adds to the heap, whether it returns or throws. *)
Lemma formatContextSection_heap (platform : jsstring) (ht : HumanText)
    (kbc : KeyBindingContexts) (contextName : jsstring) (h : Heap) :
  h ⊆ finalState (formatContextSection platform ht kbc contextName h).
Proof.
  unfold formatContextSection, deref, bind, ret, throw.
  destruct (context kbc contextName) as [m|]; simpl; [|done].
  destruct (h !! keyBindings m) as [bs|] eqn:E.
  - rewrite (formatKeyBindingsMapping_run platform ht m h bs E). simpl.
    apply fresh_insert_subseteq.
  - by rewrite (formatKeyBindingsMapping_no_array_run platform ht m h E).
Qed.

Lemma Array_map_sections (platform : jsstring) (ht : HumanText)
    (kbc : KeyBindingContexts) (arrays : jsstring -> list KeyBinding)
    (h : Heap) (names : list jsstring) :
  (forall contextName, contextName ∈ names ->
     exists m, context kbc contextName = Some m
               /\ h !! keyBindings m = Some (arrays contextName)) ->
  forall h1 : Heap, h ⊆ h1 ->
  exists h2 : Heap,
    Array_map (formatContextSection platform ht kbc) names h1
      = Return (map (fun contextName =>
                       sectionOf platform ht contextName (arrays contextName))
                    names) h2
    /\ h1 ⊆ h2.
Proof.
  induction names as [|contextName names IH]; intros Hall h1 Hsub; simpl.
  - by exists h1.
  - destruct (Hall contextName) as (m & Hm & Hbs); [apply list_elem_of_here|].
    assert (Hbs1 : h1 !! keyBindings m = Some (arrays contextName))
      by (eapply lookup_weaken; eauto).
    unfold bind at 1. unfold formatContextSection at 1.
    unfold deref, bind, ret. rewrite Hm.
    rewrite (formatKeyBindingsMapping_run platform ht m h1 _ Hbs1).
    pose proof (fresh_insert_subseteq h1
                  (insertionSort (compareBindings ht) (arrays contextName)))
      as Hstep.
    destruct (IH (fun c Hc => Hall c (list_elem_of_further _ _ _ Hc))
                 _ (transitivity Hsub Hstep)) as (h2 & Hrun & Hsub2).
    fold (@bind Heap). unfold bind in Hrun |- *. rewrite Hrun.
    exists h2. split; [reflexivity|]. by transitivity
      (<[fresh (dom h1) :=
           insertionSort (compareBindings ht) (arrays contextName)]> h1).
Qed.

Lemma sortedTable_tableOfRows (platform : jsstring) (ht : HumanText)
    (bs : list KeyBinding) :
  sortedTable platform ht bs
    = tableOfRows platform ht (insertionSort (compareBindings ht) bs).
Proof.
  unfold sortedTable, tableOfRows.
  by rewrite (map_ext _ _ (formatRow_rowText platform ht)).
Qed.

(** X8. When every context of the list of contexts has a mapping with an
    array, the page is the sections of the contexts one after the other in
    the order of that list, each the heading of the context and the table
    of the context's bindings in non-decreasing order of their labels, and
    every array there was is unchanged. The heading is the entry of the
    context in [humanText.contextNames]; the context's name stands in for
    an empty entry and for a name found nowhere, and a name like that of an
    inherited member gets that member, converted to its string. *)
Theorem formatKeyBindingsPage_sections (platform : jsstring) (ht : HumanText)
    (kbc : KeyBindingContexts) (arrays : jsstring -> list KeyBinding)
    (h : Heap) :
  (forall contextName, contextName ∈ contexts ht ->
     exists m, context kbc contextName = Some m
               /\ h !! keyBindings m = Some (arrays contextName)) ->
  exists (rowsOf : jsstring -> list KeyBinding) (h' : Heap),
    formatKeyBindingsPage platform ht kbc h
      = Return (concat (map (fun contextName =>
                               lit "<h2>" ++ contextHeading ht contextName ++
                               lit "</h2>" ++
                               tableOfRows platform ht (rowsOf contextName))
                            (contexts ht))) h'
    /\ (forall contextName,
          Permutation (arrays contextName) (rowsOf contextName)
          /\ StronglySorted (labelOrder ht) (rowsOf contextName))
    /\ (forall contextName,
          contextHeading ht contextName =
            match contextNames ht !! contextName with
            | Some heading =>
                if bool_decide (heading = []) then contextName else heading
            | None => default contextName (objectPrototype ht !! contextName)
            end)
    /\ h ⊆ h'.
Proof.
  intros Hall.
  destruct (Array_map_sections platform ht kbc arrays h (contexts ht) Hall h)
    as (h' & Hrun & Hsub); [done|].
  exists (fun contextName =>
            insertionSort (compareBindings ht) (arrays contextName)), h'.
  split_and!.
  - unfold formatKeyBindingsPage, bind, ret. rewrite Hrun.
    rewrite join_empty_concat.
    rewrite (map_ext _
               (fun contextName =>
                  lit "<h2>" ++ contextHeading ht contextName ++ lit "</h2>" ++
                  tableOfRows platform ht
                    (insertionSort (compareBindings ht) (arrays contextName))));
      [reflexivity|].
    intros contextName. unfold sectionOf.
    by rewrite sortedTable_tableOfRows.
  - intros contextName.
    split; [apply insertionSort_perm | apply insertionSort_labelOrder].
  - intros contextName. unfold contextHeading.
    destruct (contextNames ht !! contextName); [reflexivity|].
    by destruct (objectPrototype ht !! contextName).
  - exact Hsub.
Qed.

Lemma formatKeyBindingsPage_sections_witness :
  exists (rowsOf : jsstring -> list KeyBinding) (h' : Heap),
    formatKeyBindingsPage darwin pageText pageContexts pageHeap
      = Return (concat (map (fun contextName =>
                               lit "<h2>" ++ contextHeading pageText contextName ++
                               lit "</h2>" ++
                               tableOfRows darwin pageText (rowsOf contextName))
                            (contexts pageText))) h'
    /\ (forall contextName,
          Permutation (pageArrays contextName) (rowsOf contextName)
          /\ StronglySorted (labelOrder pageText) (rowsOf contextName)).
Proof.
  destruct (formatKeyBindingsPage_sections darwin pageText pageContexts
              pageArrays pageHeap) as (rowsOf & h' & Hrun & Hrows & _).
  - intros contextName Hin. apply list_elem_of_In in Hin.
    destruct Hin as [<-|[<-|[]]].
    + exists {| keyBindings := 0%nat |}. split; reflexivity.
    + exists {| keyBindings := 1%nat |}. split; reflexivity.
  - exists rowsOf, h'. by split.
Defined.

(** A context named like an inherited member is headed by the member's
    text. *)
Example contextHeading_inherited :
  contextHeading noLabels (lit "toString")
    = lit "function toString() { [native code] }".
Proof. vm_compute. reflexivity. Qed.

Lemma Array_map_missing_context (platform : jsstring) (ht : HumanText)
    (kbc : KeyBindingContexts) (missing : jsstring) (names : list jsstring) :
  missing ∈ names ->
  context kbc missing = None ->
  forall h1 : Heap,
  exists h2 : Heap,
    Array_map (formatContextSection platform ht kbc) names h1
      = Throw TypeError h2
    /\ h1 ⊆ h2.
Proof.
  intros Hin Hnone.
  induction names as [|contextName names IH]; intros h1.
  - by apply elem_of_nil in Hin.
  - simpl. unfold bind at 1.
    pose proof (formatContextSection_heap platform ht kbc contextName h1)
      as Hheap.
    destruct (formatContextSection platform ht kbc contextName h1)
      as [sec h1'|[] h1'] eqn:E; simpl in Hheap.
    + apply elem_of_cons in Hin as [->|Hin].
      * unfold formatContextSection, deref, bind, throw in E.
        rewrite Hnone in E. discriminate.
      * destruct (IH Hin h1') as (h2 & Hrun & Hsub).
        unfold bind. rewrite Hrun. exists h2. split; [reflexivity|].
        by transitivity h1'.
    + by exists h1'.
Qed.

(** X9. When [context()] gives [null] for one of the contexts of the list,
    the page formatter throws a TypeError; the arrays there were are still
    unchanged. *)
Theorem formatKeyBindingsPage_missing_context (platform : jsstring)
    (ht : HumanText) (kbc : KeyBindingContexts) (missing : jsstring)
    (h : Heap) :
  missing ∈ contexts ht ->
  context kbc missing = None ->
  exists h' : Heap,
    formatKeyBindingsPage platform ht kbc h = Throw TypeError h'
    /\ h ⊆ h'.
Proof.
  intros Hin Hnone.
  destruct (Array_map_missing_context platform ht kbc missing (contexts ht)
              Hin Hnone h) as (h' & Hrun & Hsub).
  exists h'. split; [|exact Hsub].
  unfold formatKeyBindingsPage, bind. by rewrite Hrun.
Qed.

Lemma formatKeyBindingsPage_missing_context_witness :
  lit "editor" ∈ contexts pageText
  /\ context mainOnlyContexts (lit "editor") = None
  /\ exists h' : Heap,
       formatKeyBindingsPage darwin pageText mainOnlyContexts pageHeap
         = Throw TypeError h'
       /\ pageHeap ⊆ h'.
Proof.
  assert (Hin : lit "editor" ∈ contexts pageText)
    by (apply list_elem_of_further, list_elem_of_here).
  split; [exact Hin|]. split; [reflexivity|].
  apply (formatKeyBindingsPage_missing_context darwin pageText
           mainOnlyContexts (lit "editor") pageHeap Hin).
  reflexivity.
Defined.

(** ** Registering the element *)

Lemma init_registered (g : Globals) :
  registered g = true -> init g = Return tt g.
Proof.
  intros Hreg. unfold init, bind, get, ret. simpl. rewrite Hreg.
  reflexivity.
Qed.

(** X10. [init] may be called any number of times: after one call or more
    the element is registered, and [registerElement] has been called for the
    tag once if the flag was not set at first, and not at all if it was. *)
Theorem init_registers_once (n : nat) (g : Globals) :
  Nat.iter (S n) (fun g => finalState (init g)) g
    = {| registered := true;
         registerElementCalls :=
           registerElementCalls g ++
           (if registered g then [] else [TAG_NAME]) |}.
Proof.
  induction n as [|n IH].
  - destruct g as [[] calls]; simpl; [by rewrite app_nil_r | reflexivity].
  - change (Nat.iter (S (S n)) (fun g => finalState (init g)) g)
      with (finalState (init (Nat.iter (S n) (fun g => finalState (init g)) g))).
    rewrite IH. by rewrite init_registered.
Qed.

(** ** The element, further *)

Lemma callsOf_managerCalls (e : Event) (s : State) :
  isManagerCall e = true ->
  callsOf e s
    = length (List.filter (fun x => bool_decide (x = e)) (managerCalls s)).
Proof.
  intros He. unfold callsOf, managerCalls.
  induction (trace (world s)) as [|x tr IH]; simpl; [reflexivity|].
  destruct (isManagerCall x) eqn:Ex; simpl.
  - case_bool_decide; simpl; by rewrite IH.
  - rewrite bool_decide_eq_false_2; [exact IH|]. intros ->. congruence.
Qed.

(** [_setConfig] makes no call on a manager and changes neither manager
    field nor any manager's config, whether it returns or throws. *)
Lemma _setConfig_frame (cfg : option config.Config) (s : State) :
  managerCalls (finalState (_setConfig cfg s)) = managerCalls s
  /\ configs (world (finalState (_setConfig cfg s))) = configs (world s)
  /\ _configManager (this (finalState (_setConfig cfg s)))
     = _configManager (this s)
  /\ _keyBindingManager (this (finalState (_setConfig cfg s)))
     = _keyBindingManager (this s).
Proof.
  destruct (cfg ≫= config.profiles) as [files|] eqn:E.
  - destruct cfg as [c|]; [|discriminate]. simpl in E.
    rewrite (_setConfig_returns c files s E). unfold managerCalls. simpl.
    split_and!; try reflexivity.
    rewrite !List.filter_app.
    repeat case_bool_decide; simpl; by rewrite ?app_nil_r.
  - by rewrite (_setConfig_throws cfg s E).
Qed.

(** [setConfigManager] on a manager is the assignment, the registration and
    then [_setConfig] on the manager's config. *)
Lemma setConfigManager_unfold (cm : ref) (s : State) :
  setConfigManager (Some cm) s
    = _setConfig (configs (world s) !! cm)
        {| this := {| _configManager := Some cm;
                      _keyBindingManager := _keyBindingManager (this s);
                      _data := _data (this s) |};
           world := {| configs := configs (world s);
                       now := now (world s);
                       trace := trace (world s)
                                  ++ [CM_registerChangeListener cm] |} |}.
Proof. reflexivity. Qed.

(** X11. [_setConfig] converges at once: on a config with a list of
    profiles, a second call with the same config finds nothing to do and
    leaves the state, assignments seen by the view included, as the first
    call left it. *)
Theorem _setConfig_idempotent (c : config.Config)
    (files : list config.KeyBindingInfo)
    (s : State) :
  config.profiles c = Some files ->
  exists s1 : State,
    _setConfig (Some c) s = Return tt s1
    /\ _setConfig (Some c) s1 = Return tt s1.
Proof.
  intros Hsc. eexists. split; [by apply _setConfig_returns|].
  rewrite (_setConfig_returns c files _ Hsc). simpl.
  rewrite (if_differs_then_new (selectedKeyBindings (_data (this s)))).
  assert (Hlen : length (if bool_decide
                              (length (keyBindingsFiles (_data (this s)))
                                 ≠ length files)
                         then files
                         else keyBindingsFiles (_data (this s)))
                 = length files).
  { case_bool_decide as Hd; [reflexivity|].
    destruct (decide (length (keyBindingsFiles (_data (this s)))
                        = length files)); [done|].
    by destruct Hd. }
  rewrite (bool_decide_eq_false_2
             (length (if bool_decide _ then _ else _) ≠ _))
    by (intros H; by apply H).
  rewrite (bool_decide_eq_false_2
             (config.keyBindingsFilename c ≠ config.keyBindingsFilename c))
    by (intros H; by apply H).
  simpl. by rewrite !app_nil_r.
Qed.

Lemma _setConfig_idempotent_witness :
  config.profiles configB = Some [profileB]
  /\ exists s1 : State,
       _setConfig (Some configB) attachedState = Return tt s1
       /\ _setConfig (Some configB) s1 = Return tt s1.
Proof.
  split; [reflexivity|].
  apply (_setConfig_idempotent configB
           [profileB] attachedState).
  reflexivity.
Defined.

(** X12. After [_setConfig] has returned, the selected file is the config's
    [keyBindingsFilename] and the model's list is as long as the config's
    list, whatever the model held before. *)
Theorem _setConfig_synchronises (c : config.Config)
    (files : list config.KeyBindingInfo) (s : State) :
  config.profiles c = Some files ->
  exists s1 : State,
    _setConfig (Some c) s = Return tt s1
    /\ selectedKeyBindings (_data (this s1)) = config.keyBindingsFilename c
    /\ length (keyBindingsFiles (_data (this s1)))
       = length files.
Proof.
  intros Hsc. eexists. split; [by apply _setConfig_returns|]. simpl.
  split; [apply if_differs_then_new|].
  case_bool_decide as Hd; [reflexivity|].
  destruct (decide (length (keyBindingsFiles (_data (this s)))
                      = length files)); [done|].
  by destruct Hd.
Qed.

Lemma _setConfig_synchronises_witness :
  config.profiles configAB = Some [profileA; profileB]
  /\ exists s1 : State,
       _setConfig (Some configAB) attachedState = Return tt s1
       /\ selectedKeyBindings (_data (this s1)) = lit "b.json"
       /\ length (keyBindingsFiles (_data (this s1))) = 2%nat.
Proof.
  split; [reflexivity|].
  apply (_setConfig_synchronises configAB
           [profileA; profileB] attachedState).
  reflexivity.
Defined.

(** X13. No echo: after the listener of the element's own config manager
    has taken over a config, the watcher's call of [_dataChanged] on the
    element's data makes no [setConfig] call and changes nothing. *)
Theorem configChange_then_watch_quiet (cm : ref) (c : config.Config)
    (files : list config.KeyBindingInfo) (s : State) :
  _configManager (this s) = Some cm ->
  configs (world s) !! cm = Some c ->
  config.profiles c = Some files ->
  exists s1 : State,
    configChangeListener cm s = Return tt s1
    /\ _dataChanged (_data (this s1)) s1 = Return tt s1.
Proof.
  intros Hcm Hc Hsc. eexists. split.
  { unfold configChangeListener, getConfig, bind. rewrite Hc.
    by apply _setConfig_returns. }
  rewrite (_dataChanged_returns _ cm c); [|exact Hcm|exact Hc]. simpl.
  rewrite (if_differs_then_new (selectedKeyBindings (_data (this s)))).
  rewrite bool_decide_eq_false_2; [reflexivity|]. intros H. by apply H.
Qed.

Lemma configChange_then_watch_quiet_witness :
  exists s1 : State,
    configChangeListener 0%nat (run [Env_config 0%nat configB] attachedState)
      = Return tt s1
    /\ _dataChanged (_data (this s1)) s1 = Return tt s1.
Proof.
  apply (configChange_then_watch_quiet 0%nat configB
           [profileB]
           (run [Env_config 0%nat configB] attachedState)); reflexivity.
Defined.

(** X14. Without a config manager, or with one whose [getConfig()] returns
    [null], [_dataChanged] throws a TypeError and has made no call and no
    assignment. *)
Theorem _dataChanged_without_config (newVal : ModelData) (s : State) :
  _configManager (this s) ≫= (fun cm => configs (world s) !! cm) = None ->
  _dataChanged newVal s = Throw TypeError s.
Proof.
  intros Hnone. destruct_state s. js_unfold.
  destruct cm0 as [cm|]; simpl in *; [|reflexivity].
  by rewrite Hnone.
Qed.

Lemma _dataChanged_without_config_witness :
  _dataChanged unlistedSelection (created emptyWorld)
    = Throw TypeError (created emptyWorld).
Proof.
  apply (_dataChanged_without_config unlistedSelection (created emptyWorld)).
  reflexivity.
Defined.

(** X15. [setConfigManager] stores the manager and registers its listener
    before it reads the config: with [null] for the manager it throws a
    TypeError having only set the field to [null]; with a manager whose
    config is [null] or lacks a system config or the list of that it throws
    a TypeError with the manager stored and the listener registered, the
    model untouched. *)
Theorem setConfigManager_failure (cm : ref) (s : State) :
  configs (world s) !! cm ≫= config.profiles = None ->
  setConfigManager None s
    = Throw TypeError
        {| this := {| _configManager := None;
                      _keyBindingManager := _keyBindingManager (this s);
                      _data := _data (this s) |};
           world := world s |}
  /\ setConfigManager (Some cm) s
     = Throw TypeError
         {| this := {| _configManager := Some cm;
                       _keyBindingManager := _keyBindingManager (this s);
                       _data := _data (this s) |};
            world := {| configs := configs (world s);
                        now := now (world s);
                        trace := trace (world s)
                                   ++ [CM_registerChangeListener cm] |} |}.
Proof.
  intros Hnone. split; [reflexivity|].
  rewrite setConfigManager_unfold. by apply _setConfig_throws.
Qed.

Lemma setConfigManager_failure_witness :
  configs (world noSystemState) !! 0%nat ≫= config.profiles = None
  /\ returned (setConfigManager None noSystemState) = false
  /\ returned (setConfigManager (Some 0%nat) noSystemState) = false
  /\ callsOf (CM_registerChangeListener 0%nat)
       (finalState (setConfigManager (Some 0%nat) noSystemState)) = 2%nat.
Proof.
  split; [reflexivity|].
  destruct (setConfigManager_failure 0%nat noSystemState eq_refl)
    as [Hnull Hcm].
  split; [exact (f_equal returned Hnull)|].
  split; [exact (f_equal returned Hcm)|].
  exact (f_equal (fun o => callsOf (CM_registerChangeListener 0%nat)
                             (finalState o)) Hcm).
Defined.

Lemma setConfigManager_managerCalls (cm : ref) (s : State) :
  managerCalls (finalState (setConfigManager (Some cm) s))
    = managerCalls s ++ [CM_registerChangeListener cm]
  /\ configs (world (finalState (setConfigManager (Some cm) s)))
     = configs (world s)
  /\ _configManager (this (finalState (setConfigManager (Some cm) s)))
     = Some cm
  /\ _keyBindingManager (this (finalState (setConfigManager (Some cm) s)))
     = _keyBindingManager (this s).
Proof.
  rewrite setConfigManager_unfold.
  destruct (_setConfig_frame (configs (world s) !! cm)
              {| this := {| _configManager := Some cm;
                            _keyBindingManager := _keyBindingManager (this s);
                            _data := _data (this s) |};
                 world := {| configs := configs (world s);
                             now := now (world s);
                             trace := trace (world s)
                                        ++ [CM_registerChangeListener cm] |} |})
    as (Hcalls & Hcfg & Hcm & Hkbm).
  rewrite Hcalls, Hcfg, Hcm, Hkbm. unfold managerCalls. simpl.
  by rewrite filter_app_last.
Qed.

Lemma detachedCallback_managerCalls (s : State) :
  managerCalls (finalState (detachedCallback s))
    = managerCalls s ++
      match _configManager (this s) with
      | Some cm => [CM_unregisterChangeListener cm]
      | None => []
      end ++
      match _keyBindingManager (this s) with
      | Some kbm => [KBM_unregisterChangeListener kbm]
      | None => []
      end.
Proof.
  destruct_state s. unfold managerCalls.
  destruct cm0, kbm0; simpl; rewrite ?List.filter_app; simpl;
    by rewrite <- ?app_assoc, ?app_nil_r.
Qed.

(** X16. A config manager that is replaced keeps its listener: after
    [setConfigManager] with one manager, [setConfigManager] with another
    and [detachedCallback], the first manager has had one more
    [registerChangeListener] call and no [unregisterChangeListener] call. *)
Theorem replaced_configManager_never_unregistered (cm1 cm2 : ref)
    (s : State) :
  cm1 <> cm2 ->
  callsOf (CM_registerChangeListener cm1)
    (run [Do_setConfigManager (Some cm1); Do_setConfigManager (Some cm2);
          Do_detachedCallback] s)
    = S (callsOf (CM_registerChangeListener cm1) s)
  /\ callsOf (CM_unregisterChangeListener cm1)
       (run [Do_setConfigManager (Some cm1); Do_setConfigManager (Some cm2);
             Do_detachedCallback] s)
     = callsOf (CM_unregisterChangeListener cm1) s.
Proof.
  intros Hne. rewrite !callsOf_managerCalls by reflexivity.
  change (run [Do_setConfigManager (Some cm1); Do_setConfigManager (Some cm2);
               Do_detachedCallback] s)
    with (finalState
            (detachedCallback
               (finalState
                  (setConfigManager (Some cm2)
                     (finalState (setConfigManager (Some cm1) s)))))).
  set (s1 := finalState (setConfigManager (Some cm1) s)).
  set (s2 := finalState (setConfigManager (Some cm2) s1)).
  destruct (setConfigManager_managerCalls cm1 s) as (Hc1 & _ & _ & Hk1).
  destruct (setConfigManager_managerCalls cm2 s1) as (Hc2 & _ & Hm2 & Hk2).
  fold s1 in Hc1, Hk1. fold s2 in Hc2, Hm2, Hk2.
  rewrite detachedCallback_managerCalls, Hm2, Hc2, Hc1.
  rewrite !List.filter_app, !length_app. simpl.
  rewrite (bool_decide_eq_true_2 (CM_registerChangeListener cm1 = _)) by done.
  rewrite (bool_decide_eq_false_2
             (CM_registerChangeListener cm2 = CM_registerChangeListener cm1))
    by congruence.
  rewrite (bool_decide_eq_false_2
             (CM_unregisterChangeListener cm2 = CM_unregisterChangeListener cm1))
    by congruence.
  destruct (_keyBindingManager (this s2)); simpl; split; lia.
Qed.

Lemma replaced_configManager_never_unregistered_witness :
  callsOf (CM_registerChangeListener 0%nat)
    (run [Do_setConfigManager (Some 0%nat); Do_setConfigManager (Some 2%nat);
          Do_detachedCallback] twoManagersState)
    = S (callsOf (CM_registerChangeListener 0%nat) twoManagersState)
  /\ callsOf (CM_unregisterChangeListener 0%nat)
       (run [Do_setConfigManager (Some 0%nat); Do_setConfigManager (Some 2%nat);
             Do_detachedCallback] twoManagersState)
     = callsOf (CM_unregisterChangeListener 0%nat) twoManagersState.
Proof.
  apply (replaced_configManager_never_unregistered 0%nat 2%nat
           twoManagersState).
  discriminate.
Defined.

Lemma setKeyBindingManager_run (newKeyBindingManager : option ref)
    (s : State) :
  setKeyBindingManager newKeyBindingManager s
    = Return tt
        {| this := {| _configManager := _configManager (this s);
                      _keyBindingManager := newKeyBindingManager;
                      _data := _data (this s) |};
           world := {| configs := configs (world s);
                       now := now (world s);
                       trace :=
                         trace (world s) ++
                         match _keyBindingManager (this s) with
                         | Some old => [KBM_unregisterChangeListener old]
                         | None => []
                         end ++
                         match newKeyBindingManager with
                         | Some m => [KBM_registerChangeListener m]
                         | None => []
                         end |} |}.
Proof.
  destruct_state s.
  destruct kbm0, newKeyBindingManager; simpl; unfold setKeyBindingManager;
    js_unfold; simpl; by rewrite <- ?app_assoc, ?app_nil_r.
Qed.


(** X18. What the two setters register, [detachedCallback] unregisters:
    from any state, setting a key binding manager and a config manager and
    then detaching makes, after the unregistration from a key binding
    manager held before, exactly the calls register, register, unregister,
    unregister on the two managers, also when [setConfigManager] throws on
    the manager's config. *)
Theorem attach_detach_balanced (cm kbm : ref) (s : State) :
  managerCalls
    (run [Do_setKeyBindingManager (Some kbm); Do_setConfigManager (Some cm);
          Do_detachedCallback] s)
    = managerCalls s ++
      match _keyBindingManager (this s) with
      | Some old => [KBM_unregisterChangeListener old]
      | None => []
      end ++
      [KBM_registerChangeListener kbm; CM_registerChangeListener cm;
       CM_unregisterChangeListener cm; KBM_unregisterChangeListener kbm].
Proof.
  change (run [Do_setKeyBindingManager (Some kbm);
               Do_setConfigManager (Some cm); Do_detachedCallback] s)
    with (finalState
            (detachedCallback
               (finalState
                  (setConfigManager (Some cm)
                     (finalState (setKeyBindingManager (Some kbm) s)))))).
  set (s1 := finalState (setKeyBindingManager (Some kbm) s)).
  destruct (setConfigManager_managerCalls cm s1) as (Hc2 & _ & Hm2 & Hk2).
  rewrite detachedCallback_managerCalls, Hm2, Hk2, Hc2.
  unfold s1. rewrite setKeyBindingManager_run. unfold managerCalls. simpl.
  rewrite !List.filter_app. simpl.
  destruct (_keyBindingManager (this s)); simpl;
    by rewrite <- ?app_assoc.
Qed.

Lemma filter_isSetConfig_assigns (tr : list Event) (b1 b2 : bool) :
  List.filter isSetConfig
    (tr ++ (if b1 then [Data_assign F_keyBindingsFiles] else []) ++
           (if b2 then [Data_assign F_selectedKeyBindings] else []))
    = List.filter isSetConfig tr.
Proof.
  rewrite !List.filter_app. destruct b1, b2; simpl; by rewrite ?app_nil_r.
Qed.

(** The listener and then the watcher: the state the listener leaves is
    the state the watcher leaves. *)
Lemma listener_then_watch_run (cm : ref) (c : config.Config)
    (files : list config.KeyBindingInfo) (s : State) :
  _configManager (this s) = Some cm ->
  configs (world s) !! cm = Some c ->
  config.profiles c = Some files ->
  exists s1 : State,
    configChangeListener cm s = Return tt s1
    /\ _dataChanged (_data (this s1)) s1 = Return tt s1
    /\ selectedKeyBindings (_data (this s1)) = config.keyBindingsFilename c
    /\ configs (world s1) = configs (world s)
    /\ setConfigCalls s1 = setConfigCalls s.
Proof.
  intros Hcm Hc Hsc. eexists. split.
  { unfold configChangeListener, getConfig, bind. rewrite Hc.
    by apply _setConfig_returns. }
  split.
  { rewrite (_dataChanged_returns _ cm c); [|exact Hcm|exact Hc]. simpl.
    rewrite (if_differs_then_new (selectedKeyBindings (_data (this s)))).
    rewrite bool_decide_eq_false_2; [reflexivity|]. intros H. by apply H. }
  simpl. split_and!; try reflexivity.
  - apply if_differs_then_new.
  - unfold setConfigCalls. simpl. apply filter_isSetConfig_assigns.
Qed.

Lemma listener_then_watch (cm : ref) (c : config.Config)
    (files : list config.KeyBindingInfo) (s : State) :
  _configManager (this s) = Some cm ->
  configs (world s) !! cm = Some c ->
  config.profiles c = Some files ->
  selectedKeyBindings (_data (this (run [On_configChange cm; On_dataWatch] s)))
    = config.keyBindingsFilename c
  /\ configs (world (run [On_configChange cm; On_dataWatch] s)) = configs (world s)
  /\ setConfigCalls (run [On_configChange cm; On_dataWatch] s) = setConfigCalls s.
Proof.
  intros Hcm Hc Hsc.
  destruct (listener_then_watch_run cm c files s Hcm Hc Hsc)
    as (s1 & Hlisten & Hwatch & Hsel & Hcfg & Hcalls).
  change (run [On_configChange cm; On_dataWatch] s)
    with (finalState
            (_dataChanged
               (_data (this (finalState (configChangeListener cm s))))
               (finalState (configChangeListener cm s)))).
  rewrite Hlisten. simpl. rewrite Hwatch. simpl. by split_and!.
Qed.

(** X19. A choice of the user settles in one round: with a manager that
    returns from [getConfig()] the config it was last given, choosing an
    option, then the manager's notification, then the watcher, leaves the
    option's file selected in the model and stored in the manager, and
    [setConfig] was called once if the file differed from the stored one
    and not at all if it did not. *)
Theorem chooseOption_converges (cm : ref) (c : config.Config)
    (files : list config.KeyBindingInfo) (option : config.KeyBindingInfo) (s : State) :
  _configManager (this s) = Some cm ->
  configs (world s) !! cm = Some c ->
  config.profiles c = Some files ->
  returned (chooseOption option s) = true
  /\ selectedKeyBindings
       (_data (this (run [On_configChange cm; On_dataWatch]
                         (finalState (chooseOption option s)))))
     = config.filename option
  /\ config.keyBindingsFilename <$>
       (configs (world (run [On_configChange cm; On_dataWatch]
                            (finalState (chooseOption option s)))) !! cm)
     = Some (config.filename option)
  /\ setConfigCalls (run [On_configChange cm; On_dataWatch]
                         (finalState (chooseOption option s)))
     = setConfigCalls s ++
       (if bool_decide (config.keyBindingsFilename c ≠ config.filename option)
        then [CM_setConfig cm (config.with_keyBindingsFilename
                                 (config.filename option) c)]
        else []).
Proof.
  intros Hcm Hc Hsc.
  assert (Hchoose : exists sa : State,
            assign_selectedKeyBindings (config.filename option) s = Return tt sa
            /\ _configManager (this sa) = Some cm
            /\ configs (world sa) = configs (world s)
            /\ selectedKeyBindings (_data (this sa)) = config.filename option
            /\ setConfigCalls sa = setConfigCalls s).
  { destruct_state s. eexists. split; [reflexivity|]. simpl.
    split_and!; try done. unfold setConfigCalls. simpl.
    rewrite filter_app_last. simpl. by rewrite app_nil_r. }
  destruct Hchoose as (sa & Hassign & Hcma & Hcfga & Hsela & Hcallsa).
  assert (Hca : configs (world sa) !! cm = Some c) by (by rewrite Hcfga).
  set (c' := config.with_keyBindingsFilename (config.filename option) c).
  set (sb := {| this := this sa;
                world := {| configs := <[cm := c']> (configs (world sa));
                            now := now (world sa);
                            trace := trace (world sa) ++ [CM_setConfig cm c'] |} |}).
  assert (Hrun : chooseOption option s
                 = Return tt
                     (if bool_decide (config.keyBindingsFilename c
                                        ≠ config.filename option)
                      then sb else sa)).
  { unfold chooseOption, bind. rewrite Hassign. unfold getData.
    rewrite (_dataChanged_returns _ cm c sa Hcma Hca). by rewrite Hsela. }
  rewrite Hrun. unfold finalState, returned.
  destruct (decide (config.keyBindingsFilename c = config.filename option))
    as [Heq|Hne].
  - rewrite bool_decide_eq_false_2 by (intros H; by apply H).
    destruct (listener_then_watch cm c files sa Hcma Hca Hsc)
      as (Hsel & Hcfg & Hcalls).
    rewrite Hsel, Hcfg, Hcalls, Hca, Hcallsa. simpl.
    split_and!; try done; [by rewrite Heq | by rewrite app_nil_r].
  - rewrite bool_decide_eq_true_2 by done.
    destruct (listener_then_watch cm c' files sb) as (Hsel & Hcfg & Hcalls);
      [exact Hcma | apply lookup_insert_eq | exact Hsc |].
    rewrite Hsel, Hcfg, Hcalls. simpl. rewrite lookup_insert_eq. simpl.
    split_and!; try done.
    unfold setConfigCalls in Hcallsa |- *. unfold sb. simpl.
    rewrite filter_app_last. simpl. by rewrite Hcallsa.
Qed.

Lemma chooseOption_converges_witness :
  returned (chooseOption profileB twoManagersState) = true
  /\ selectedKeyBindings
       (_data (this (run [On_configChange 0%nat; On_dataWatch]
                         (finalState (chooseOption profileB twoManagersState)))))
     = lit "b.json".
Proof.
  destruct (chooseOption_converges 0%nat configA
              [profileA] profileB
              twoManagersState eq_refl eq_refl eq_refl)
    as (Hret & Hsel & _).
  split; [exact Hret | exact Hsel].
Defined.
